(** * Azure ML samples: the batch scorer and the asset registrar

    A shallow embedding of [score_sample.py] and [register_assets_sample.py].
    Both scripts are sequential glue around external libraries (the
    filesystem, pandas, mlflow, the Azure ML SDK).  The external calls are
    taken as parameters: a record of operations that may return a value or
    raise.  Every call the scripts make is recorded, in order, in a log, so
    that statements such as "no create call is made" or "exactly one output
    file is written" are statements about that log. *)

From Stdlib Require Import ZArith Lia Ascii String.
From stdpp Require Import base gmap strings list.

Open Scope string_scope.
Open Scope list_scope.

(** ** Python strings

    Strings are sequences of one-byte characters.  [lower] is [str.lower]
    on ASCII letters; other bytes are left as they are. *)

Module PyStr.

Definition lower_ascii (c : ascii) : ascii :=
  let n := nat_of_ascii c in
  if (65 <=? n)%nat && (n <=? 90)%nat then ascii_of_nat (n + 32) else c.

Fixpoint lower (s : string) : string :=
  match s with
  | EmptyString => EmptyString
  | String c s' => String (lower_ascii c) (lower s')
  end.

(** [s.startswith(p)] *)
Fixpoint startswith (p s : string) : bool :=
  match p, s with
  | EmptyString, _ => true
  | String a p', String b s' => bool_decide (a = b) && startswith p' s'
  | String _ _, EmptyString => false
  end.

(** [sub in s] *)
Fixpoint contains (sub s : string) : bool :=
  startswith sub s ||
  match s with
  | EmptyString => false
  | String _ s' => contains sub s'
  end.

Fixpoint drop (n : nat) (s : string) : string :=
  match n, s with
  | O, _ => s
  | S n', String _ s' => drop n' s'
  | S _, EmptyString => EmptyString
  end.

(** [s.endswith(suf)] *)
Definition endswith (suf s : string) : bool :=
  (String.length suf <=? String.length s)%nat &&
  bool_decide (drop (String.length s - String.length suf) s = suf).

End PyStr.

(** [os.path.join(a, b)] of [posixpath], for one component [b]. *)
Definition path_join (a b : string) : string :=
  if PyStr.startswith "/" b then b
  else if bool_decide (a = "") || PyStr.endswith "/" a then a +:+ b
  else a +:+ "/" +:+ b.

(** ** Exceptions and the monad of the scripts *)

Inductive Exn : Type :=
| KeyError (key : string)
| IndexError
| ValueError (msg : string)
| External (what : string).   (* raised inside a library or the platform *)

Inductive result (A : Type) : Type :=
| Ok (a : A)
| Raise (e : Exn).
Arguments Ok {A} a.
Arguments Raise {A} e.

(** A computation threads a state [S] (which holds the log) and either
    returns or raises. *)
Definition M (S A : Type) : Type := S -> S * result A.

Definition ret {S A} (a : A) : M S A := fun s => (s, Ok a).

Definition raise {S A} (e : Exn) : M S A := fun s => (s, Raise e).

Definition bind {S A B} (m : M S A) (k : A -> M S B) : M S B :=
  fun s =>
    match m s with
    | (s', Ok a) => k a s'
    | (s', Raise e) => (s', Raise e)
    end.

(** [try: m  except: h]: a bare [except] catches whatever was raised. *)
Definition try_except {S A} (m h : M S A) : M S A :=
  fun s =>
    match m s with
    | (s', Ok a) => (s', Ok a)
    | (s', Raise _) => h s'
    end.

Definition lift {S A} (r : result A) : M S A := fun s => (s, r).

Declare Scope py_scope.
Delimit Scope py_scope with py.
Notation "x <- m ;; k" := (bind m (fun x => k))
  (at level 100, m at next level, right associativity) : py_scope.
Notation "m ;;; k" := (bind m (fun _ => k))
  (at level 100, right associativity) : py_scope.
Open Scope py_scope.

(** ** The batch scorer, [score_sample.py] *)

Module Score.

(** *** Dataframes

    A dataframe is its ordered column labels and its rows, in index order.
    A row maps a column label to the cell it holds; a label with no entry
    in a row is a missing value (NaN). *)

Inductive Cell : Type :=
| Num (z : Z)
| Str (s : string).

Record DataFrame : Type := mkDF {
  columns : list string;
  rows : list (gmap string Cell)
}.

(** Row [i] receives [values[i]] under label [c]. *)
Definition set_cells (c : string) (rs : list (gmap string Cell))
    (values : list Cell) : list (gmap string Cell) :=
  zip_with (fun r v => <[c := v]> r) rs values.

(** [df[c] = values], for a one-dimensional array [values]: the column is
    overwritten when [c] is already a label and appended otherwise; an
    array whose length differs from the number of rows raises. *)
Definition with_column (df : DataFrame) (c : string) (values : list Cell)
  : DataFrame :=
  {| columns := if bool_decide (c ∈ columns df) then columns df
                else columns df ++ [c];
     rows := set_cells c (rows df) values |}.

Definition set_column (df : DataFrame) (c : string) (values : list Cell)
  : result DataFrame :=
  if bool_decide (length values = length (rows df)) then
    Ok (with_column df c values)
  else Raise (ValueError "Length of values does not match length of index").

(** Labels of [cs] that [acc] does not have yet are appended to [acc]. *)
Definition union_columns (acc cs : list string) : list string :=
  acc ++ filter (fun c => c ∉ acc) cs.

(** [pd.concat(dfs, ignore_index=True)]: the rows one frame after the
    other, the columns in order of first appearance; no frames raises. *)
Definition concat (dfs : list DataFrame) : result DataFrame :=
  match dfs with
  | [] => Raise (ValueError "No objects to concatenate")
  | d :: ds =>
      Ok {| columns := foldl union_columns (columns d) (map columns ds);
            rows := mjoin (map rows dfs) |}
  end.

(** *** The outside world of the scorer *)

(** A loaded model is its [predict] method. *)
Record Model : Type := { predict : DataFrame -> result (list Cell) }.

Record Env : Type := {
  load_model : string -> result Model;       (* mlflow.sklearn.load_model *)
  isdir : string -> bool;                    (* os.path.isdir *)
  listdir : string -> result (list string);  (* os.listdir *)
  read_csv : string -> result DataFrame;     (* pd.read_csv *)
  makedirs : string -> result unit;          (* os.makedirs(_, exist_ok=True) *)
  to_csv : string -> DataFrame -> result unit (* df.to_csv(_, index=False) *)
}.

(** The three required command-line arguments, already parsed. *)
Record Args : Type := {
  input_data : string;
  output_data : string;
  model_path : string
}.

Inductive Event : Type :=
| Print (line : string)
| LoadModel (path : string)
| ListDir (path : string)
| ReadCsv (path : string)
| Predict (df : DataFrame)
| MakeDirs (path : string)
| ToCsv (path : string) (df : DataFrame).

Definition Run (A : Type) : Type := M (list Event) A.

(** Record the call, then perform it. *)
Definition call {A} (ev : Event) (r : result A) : Run A :=
  fun log => (log ++ [ev], r).

Definition print (line : string) : Run unit := call (Print line) (Ok tt).

Section Scorer.

Variable env : Env.

(** The comprehension over [os.listdir]: names ending in ".csv", joined
    to the directory. *)
Definition csv_names (names : list string) : list string :=
  filter (fun f => PyStr.endswith ".csv" f = true) names.

Definition input_files (input : string) : Run (list string) :=
  if isdir env input then
    names <- call (ListDir input) (listdir env input) ;;
    ret (map (path_join input) (csv_names names))
  else ret [input].

(** The body of the [for file in files] loop, and the loop. *)
Definition score_file (model : Model) (file : string) : Run DataFrame :=
  print ("📄 Processing: " +:+ file) ;;;
  df <- call (ReadCsv file) (read_csv env file) ;;
  predictions <- call (Predict df) (predict model df) ;;
  lift (set_column df "prediction" predictions).

Fixpoint score_files (model : Model) (files : list string)
    (results : list DataFrame) : Run (list DataFrame) :=
  match files with
  | [] => ret results
  | file :: files' =>
      df <- score_file model file ;;
      score_files model files' (results ++ [df])
  end.

Definition save_results (output : string) (results : list DataFrame)
  : Run unit :=
  match results with
  | _ :: _ =>
      final_df <- lift (concat results) ;;
      call (MakeDirs output) (makedirs env output) ;;;
      let output_file := path_join output "scored_results.csv" in
      call (ToCsv output_file final_df) (to_csv env output_file final_df) ;;;
      print ("✅ Results saved to: " +:+ output_file)
  | [] => print "⚠️ No results to save"
  end.

Definition main (args : Args) : Run unit :=
  print ("Input path: " +:+ input_data args) ;;;
  print ("Output: " +:+ output_data args) ;;;
  print ("Model path: " +:+ model_path args) ;;;
  model <- call (LoadModel (model_path args)) (load_model env (model_path args)) ;;
  print "✅ Model loaded" ;;;
  files <- input_files (input_data args) ;;
  results <- score_files model files [] ;;
  save_results (output_data args) results.

End Scorer.

(** What a run read, created and wrote, read off its log. *)
Definition reads (log : list Event) : list string :=
  omap (fun ev => match ev with ReadCsv p => Some p | _ => None end) log.

Definition created_dirs (log : list Event) : list string :=
  omap (fun ev => match ev with MakeDirs p => Some p | _ => None end) log.

Definition written (log : list Event) : list (string * DataFrame) :=
  omap (fun ev => match ev with ToCsv p df => Some (p, df) | _ => None end) log.

Definition printed (log : list Event) : list string :=
  omap (fun ev => match ev with Print l => Some l | _ => None end) log.

Definition listed (log : list Event) : list string :=
  omap (fun ev => match ev with ListDir p => Some p | _ => None end) log.

Definition predicted (log : list Event) : list DataFrame :=
  omap (fun ev => match ev with Predict df => Some df | _ => None end) log.

(** The file the scorer writes, for a given [--output_data]. *)
Definition output_file (args : Args) : string :=
  path_join (output_data args) "scored_results.csv".

End Score.

(** ** The asset registrar, [register_assets_sample.py] *)

Module Register.

Abbreviation Config := (gmap string string).

(** [config[k]] on the loaded mapping. *)
Definition getitem (config : Config) (k : string) : result string :=
  match config !! k with
  | Some v => Ok v
  | None => Raise (KeyError k)
  end.

(** *** The entities the script builds or receives *)

Inductive AssetType : Type := URI_FILE | MLFLOW_MODEL.

Record BuildContext : Type := {
  build_path : string;
  dockerfile_path : string
}.

Record Environment : Type := {
  env_name : string;
  env_version : option string;
  env_description : option string;
  env_build : option BuildContext
}.

Record Input : Type := { input_type : AssetType; input_path : string }.

(** What a pipeline binds to an input of its step. *)
Inductive Binding : Type :=
| BoundInput (i : Input)          (* an asset given at submission *)
| PipelineParameter (name : string)
| Literal (v : option string).

(** A component loaded from YAML, or the component of a [@pipeline]
    function with its single step. *)
Inductive Component : Type :=
| Command (name version : string)
| Pipeline (name default_compute : string) (step : Component)
    (bindings : list (string * Binding)) (output : string).

Definition comp_name (c : Component) : string :=
  match c with Command n _ => n | Pipeline n _ _ _ _ => n end.

Definition comp_version (c : Component) : string :=
  match c with Command _ v => v | Pipeline _ _ _ _ _ => "None" end.

(** A pipeline job built by calling a [@pipeline] function. *)
Record PipelineJob : Type := { component : Component }.

Record Data : Type := { data_name : string; data_id : string }.

Record Job : Type := {
  job_name : string;
  display_name : string;
  status : string;
  studio_url : string
}.

Record Model : Type := {
  model_path : string;
  model_name : string;
  model_type : AssetType;
  model_id : option string;
  model_version : option string
}.

Record BatchEndpoint : Type := {
  endpoint_name : string;
  defaults_deployment_name : option string
}.

Record PipelineComponentBatchDeployment : Type := {
  deployment_name : string;
  deployment_endpoint_name : string;
  deployment_component : Component;
  continue_on_step_failure : bool;
  default_compute : string
}.

Record Workspace : Type := {
  subscription_id : string;
  resource_group_name : string;
  workspace_name : string
}.

Definition show (v : option string) : string := default "None" v.

(** *** The SDK client

    Each operation of [MLClient] acts on the platform, whose state has
    some type [P], and returns or raises.  [begin_..._result] is a
    [begin_create_or_update(...)] followed by [.result()]. *)

Record MLClient (P : Type) : Type := {
  environments_get : string -> string -> P -> P * result Environment;
  environments_create_or_update : Environment -> P -> P * result Environment;
  components_get : string -> string -> P -> P * result Component;
  components_create_or_update : Component -> P -> P * result Component;
  data_get : string -> string -> P -> P * result Data;
  jobs_create_or_update : PipelineJob -> P -> P * result Job;
  jobs_stream : string -> P -> P * result (option string);
  jobs_list : string -> P -> P * result (list Job);
  models_create_or_update : Model -> P -> P * result Model;
  batch_endpoints_get : string -> P -> P * result BatchEndpoint;
  batch_endpoints_begin_create_or_update_result :
    BatchEndpoint -> P -> P * result BatchEndpoint;
  batch_deployments_begin_create_or_update_result :
    PipelineComponentBatchDeployment -> P ->
    P * result PipelineComponentBatchDeployment
}.
Arguments environments_get {P}.
Arguments environments_create_or_update {P}.
Arguments components_get {P}.
Arguments components_create_or_update {P}.
Arguments data_get {P}.
Arguments jobs_create_or_update {P}.
Arguments jobs_stream {P}.
Arguments jobs_list {P}.
Arguments models_create_or_update {P}.
Arguments batch_endpoints_get {P}.
Arguments batch_endpoints_begin_create_or_update_result {P}.
Arguments batch_deployments_begin_create_or_update_result {P}.

(** Files read from the working directory. *)
Record Files : Type := {
  json_load : string -> result Config;          (* open + json.load *)
  load_component : string -> result Component   (* load_component(source=_) *)
}.

(** *** The log: every call with what it returned or raised *)

Inductive Event : Type :=
| Print (line : string)
| JsonLoad (path : string) (r : result Config)
| LoadComponent (path : string) (r : result Component)
| EnvironmentsGet (name label : string) (r : result Environment)
| EnvironmentsCreate (env : Environment) (r : result Environment)
| ComponentsGet (name version : string) (r : result Component)
| ComponentsCreate (c : Component) (r : result Component)
| DataGet (name label : string) (r : result Data)
| JobsCreate (j : PipelineJob) (r : result Job)
| JobsStream (name : string) (r : result (option string))
| JobsList (parent_job_name : string) (r : result (list Job))
| ModelsCreate (m : Model) (r : result Model)
| EndpointsGet (name : string) (r : result BatchEndpoint)
| EndpointsCreate (e : BatchEndpoint) (r : result BatchEndpoint)
| DeploymentsCreate (d : PipelineComponentBatchDeployment)
    (r : result PipelineComponentBatchDeployment).

(** Calls that go to the platform. *)
Definition is_remote (ev : Event) : bool :=
  match ev with
  | Print _ | JsonLoad _ _ | LoadComponent _ _ => false
  | _ => true
  end.

(** Calls that create (or update) a resource on the platform. *)
Definition is_create (ev : Event) : bool :=
  match ev with
  | EnvironmentsCreate _ _ | ComponentsCreate _ _ | JobsCreate _ _
  | ModelsCreate _ _ | EndpointsCreate _ _ | DeploymentsCreate _ _ => true
  | _ => false
  end.

(** Model registration, and creation of an endpoint or a deployment. *)
Definition is_publication (ev : Event) : bool :=
  match ev with
  | ModelsCreate _ _ | EndpointsCreate _ _ | DeploymentsCreate _ _ => true
  | _ => false
  end.

(** The calls each part of [main] can make; [Print] is in all of them. *)
Definition in_setup (ev : Event) : bool :=
  match ev with
  | Print _ | JsonLoad _ _ | LoadComponent _ _ | EnvironmentsGet _ _ _
  | EnvironmentsCreate _ _ | ComponentsGet _ _ _ | ComponentsCreate _ _
  | DataGet _ _ _ => true
  | _ => false
  end.

Definition in_train (ev : Event) : bool :=
  match ev with
  | Print _ | JobsCreate _ _ | JobsStream _ _ => true
  | _ => false
  end.

Definition in_register_model (ev : Event) : bool :=
  match ev with
  | Print _ | JobsList _ _ | ModelsCreate _ _ => true
  | _ => false
  end.

Definition in_publish (ev : Event) : bool :=
  match ev with
  | Print _ | EndpointsGet _ _ | EndpointsCreate _ _ | ComponentsCreate _ _
  | DeploymentsCreate _ _ => true
  | _ => false
  end.

(** The submission of a job, and the listing of child jobs. *)
Definition is_submission (ev : Event) : bool :=
  match ev with JobsCreate _ _ => true | _ => false end.

Definition is_listing (ev : Event) : bool :=
  match ev with JobsList _ _ => true | _ => false end.

Definition is_model_registration (ev : Event) : bool :=
  match ev with ModelsCreate _ _ => true | _ => false end.

(** The create calls among some events. *)
Definition creates (evs : list Event) : list Event :=
  filter (fun ev => is_create ev = true) evs.

Section Registrar.

Context {P : Type}.

Record State : Type := { platform : P; log : list Event }.

Definition init (p : P) : State := {| platform := p; log := [] |}.

Definition Run (A : Type) : Type := M State A.

Definition remote {A} (mk : result A -> Event) (op : P -> P * result A)
  : Run A :=
  fun s =>
    let '(p', r) := op (platform s) in
    ({| platform := p'; log := log s ++ [mk r] |}, r).

Definition local {A} (mk : result A -> Event) (r : result A) : Run A :=
  fun s => ({| platform := platform s; log := log s ++ [mk r] |}, r).

Definition print (line : string) : Run unit :=
  local (fun _ => Print line) (Ok tt).

(** [m] only appends to the log, and every call it appends is in [Q]. *)
Definition emits {A} (Q : Event -> bool) (m : Run A) : Prop :=
  forall s, exists delta,
    log (m s).1 = log s ++ delta /\ Forall (fun ev => Q ev = true) delta.

(** The working directory, and the client the SDK gives for a workspace. *)
Variable files : Files.
Variable MLClient_new : Workspace -> MLClient P.

Definition load_config (config_path : string) : Run Config :=
  local (JsonLoad config_path) (json_load files config_path).

(** The keyword arguments are evaluated left to right, the three
    subscripts after the credential object is built (a local object, not
    modelled). *)
Definition get_ml_client (config : Config) : Run (MLClient P) :=
  subscription <- lift (getitem config "subscription_id") ;;
  group <- lift (getitem config "resource_group") ;;
  workspace <- lift (getitem config "workspace_name") ;;
  ret (MLClient_new {| subscription_id := subscription;
                       resource_group_name := group;
                       workspace_name := workspace |}).

Definition register_environment (ml_client : MLClient P)
    (name dockerfile : string) : Run Environment :=
  env <- try_except
    (remote (EnvironmentsGet name "latest")
            (environments_get ml_client name "latest"))
    (let env := {| env_name := name;
                   env_version := None;
                   env_description := Some ("Environment for " +:+ name);
                   env_build := Some {| build_path := ".";
                                        dockerfile_path := dockerfile |} |} in
     remote (EnvironmentsCreate env)
            (environments_create_or_update ml_client env)) ;;
  print ("✅ Environment: " +:+ env_name env +:+ ":" +:+ show (env_version env)) ;;;
  ret env.

Definition register_component (ml_client : MLClient P) (yaml_path : string)
  : Run Component :=
  component <- local (LoadComponent yaml_path) (load_component files yaml_path) ;;
  component <- try_except
    (remote (ComponentsGet (comp_name component) (comp_version component))
            (components_get ml_client (comp_name component)
                            (comp_version component)))
    (remote (ComponentsCreate component)
            (components_create_or_update ml_client component)) ;;
  print ("✅ Component: " +:+ comp_name component +:+ ":" +:+ comp_version component) ;;;
  ret component.

(** The two [@pipeline] functions of [main], closed over the names they
    use; calling one builds a pipeline job. *)
Definition training_pipeline (experiment cluster_name : string)
    (train_component : Component) (training_data : Binding) : PipelineJob :=
  {| component :=
       Pipeline (experiment +:+ "_training") cluster_name train_component
                [("input_data", training_data)] "output_model" |}.

Definition scoring_pipeline (experiment cluster_name : string)
    (score_component : Component) (model : Model) (input_data : Binding)
  : PipelineJob :=
  {| component :=
       Pipeline (experiment +:+ "_scoring") cluster_name score_component
                [("input_data", input_data);
                 ("model_path", Literal (model_id model))] "output_data" |}.

(** [child_jobs[0]] *)
Definition first_item (child_jobs : list Job) : result Job :=
  match child_jobs with
  | [] => Raise IndexError
  | j :: _ => Ok j
  end.

Definition is_train_job (j : Job) : bool :=
  PyStr.contains "train_job" (PyStr.lower (display_name j)).

(** [next((j for j in child_jobs if ...), default)] *)
Definition next_train_job (child_jobs : list Job) (default_job : Job) : Job :=
  default default_job (List.find is_train_job child_jobs).

Definition model_artifact_path (train_job : Job) : string :=
  "azureml://jobs/" +:+ job_name train_job +:+ "/outputs/artifacts/paths/model/".

(** What the first part of [main] leaves to the rest of it. *)
Record Context : Type := {
  ml_client : MLClient P;
  cluster_name : string;
  experiment : string;
  train_component : Component;
  score_component : Component;
  data : Data
}.

(** [main], lines 53-70: configuration, client, environment, components,
    training data. *)
Definition setup : Run Context :=
  config <- load_config "config.json" ;;
  ml_client <- get_ml_client config ;;
  cluster_name <- lift (getitem config "cluster") ;;
  experiment <- lift (getitem config "experiment") ;;
  env <- register_environment ml_client "iGuard-env" "Dockerfile" ;;
  train_component <- register_component ml_client "train.yaml" ;;
  score_component <- register_component ml_client "score.yaml" ;;
  datasource_name <- lift (getitem config "datasource_name") ;;
  data <- remote (DataGet datasource_name "latest")
                 (data_get ml_client datasource_name "latest") ;;
  print ("✅ Data: " +:+ data_name data) ;;;
  ret {| ml_client := ml_client;
         cluster_name := cluster_name;
         experiment := experiment;
         train_component := train_component;
         score_component := score_component;
         data := data |}.

(** [main], lines 72-89: the training job is submitted and its logs are
    streamed until it ends.  [job] is the object the submission returned;
    the stream is given its name only. *)
Definition train (ctx : Context) : Run Job :=
  let pipeline_job :=
    training_pipeline (experiment ctx) (cluster_name ctx) (train_component ctx)
      (BoundInput {| input_type := URI_FILE;
                     input_path := data_id (data ctx) |}) in
  job <- remote (JobsCreate pipeline_job)
                (jobs_create_or_update (ml_client ctx) pipeline_job) ;;
  print ("Training job submitted: " +:+ studio_url job) ;;;
  streamed <- remote (JobsStream (job_name job))
                     (jobs_stream (ml_client ctx) (job_name job)) ;;
  print (show streamed) ;;;
  ret job.

(** [main], lines 94-103: the child job whose output is the model, and
    the registration of that model.  The default [child_jobs[0]] is
    evaluated before [next] looks at any child. *)
Definition select_train_job (child_jobs : list Job) : result Job :=
  match first_item child_jobs with
  | Ok default_job => Ok (next_train_job child_jobs default_job)
  | Raise e => Raise e
  end.

Definition register_model (ctx : Context) (job : Job) : Run Model :=
  child_jobs <- remote (JobsList (job_name job))
                       (jobs_list (ml_client ctx) (job_name job)) ;;
  train_job <- lift (select_train_job child_jobs) ;;
  let new_model := {| model_path := model_artifact_path train_job;
                      model_name := experiment ctx +:+ "-model";
                      model_type := MLFLOW_MODEL;
                      model_id := None;
                      model_version := None |} in
  model <- remote (ModelsCreate new_model)
                  (models_create_or_update (ml_client ctx) new_model) ;;
  print ("✅ Model: " +:+ model_name model +:+ ":" +:+ show (model_version model)) ;;;
  ret model.

(** [main], lines 105-139: the scoring pipeline, the batch endpoint, the
    deployment, and the deployment made the default of the endpoint. *)
Definition publish (ctx : Context) (model : Model) : Run unit :=
  let endpoint_name := experiment ctx +:+ "-endpoint" in
  let deployment_name := experiment ctx +:+ "-deployment" in
  endpoint <- try_except
    (remote (EndpointsGet endpoint_name)
            (batch_endpoints_get (ml_client ctx) endpoint_name))
    (let endpoint := {| endpoint_name := endpoint_name;
                        defaults_deployment_name := None |} in
     remote (EndpointsCreate endpoint)
            (batch_endpoints_begin_create_or_update_result (ml_client ctx)
               endpoint) ;;;
     ret endpoint) ;;
  print ("Endpoint: " +:+ endpoint_name) ;;;
  let scoring :=
    scoring_pipeline (experiment ctx) (cluster_name ctx) (score_component ctx)
                     model (PipelineParameter "input_data") in
  pipeline_component <-
    remote (ComponentsCreate (component scoring))
           (components_create_or_update (ml_client ctx) (component scoring)) ;;
  let deployment := {| deployment_name := deployment_name;
                       deployment_endpoint_name := endpoint_name;
                       deployment_component := pipeline_component;
                       continue_on_step_failure := false;
                       default_compute := cluster_name ctx |} in
  remote (DeploymentsCreate deployment)
         (batch_deployments_begin_create_or_update_result (ml_client ctx)
            deployment) ;;;
  endpoint <- remote (EndpointsGet endpoint_name)
                     (batch_endpoints_get (ml_client ctx) endpoint_name) ;;
  let endpoint := {| endpoint_name := Register.endpoint_name endpoint;
                     defaults_deployment_name := Some deployment_name |} in
  remote (EndpointsCreate endpoint)
         (batch_endpoints_begin_create_or_update_result (ml_client ctx)
            endpoint) ;;;
  print ("Deployment: " +:+ deployment_name).

(** The keys [setup] reads before its first call to the platform, in the
    order it reads them. *)
Definition early_keys : list string :=
  ["subscription_id"; "resource_group"; "workspace_name"; "cluster";
   "experiment"].

Definition first_missing (config : Config) : option string :=
  List.find (fun k => bool_decide (config !! k = None)) early_keys.

(** [main]: the four parts in order, with the early return of lines 90-92
    between training and model registration. *)
Definition main : Run unit :=
  ctx <- setup ;;
  job <- train ctx ;;
  if bool_decide (status job ≠ "Completed") then
    print ("Training failed: " +:+ status job)
  else
    model <- register_model ctx job ;;
    publish ctx model.

End Registrar.

(** *** The runs of [main]

    The logs [main] can leave, with its outcome, by the point where the
    run stops.  [d0] stands for the calls of [setup], [d2] for the calls
    after the request to register the model. *)

Definition waited (pipeline_job : PipelineJob) (job : Job)
    (out : option string) : list Event :=
  [JobsCreate pipeline_job (Ok job);
   Print ("Training job submitted: " +:+ studio_url job);
   JobsStream (job_name job) (Ok out);
   Print (show out)].

Inductive Trace : list Event -> result unit -> Prop :=
| SetupRaised d0 e :
    Forall (fun ev => in_setup ev = true) d0 ->
    Trace d0 (Raise e)
| SubmitRaised d0 pipeline_job e :
    Forall (fun ev => in_setup ev = true) d0 ->
    Trace (d0 ++ [JobsCreate pipeline_job (Raise e)]) (Raise e)
| StreamRaised d0 pipeline_job job e :
    Forall (fun ev => in_setup ev = true) d0 ->
    Trace (d0 ++ [JobsCreate pipeline_job (Ok job);
                  Print ("Training job submitted: " +:+ studio_url job);
                  JobsStream (job_name job) (Raise e)]) (Raise e)
| TrainingFailed d0 pipeline_job job out :
    Forall (fun ev => in_setup ev = true) d0 ->
    status job <> "Completed" ->
    Trace (d0 ++ waited pipeline_job job out ++
           [Print ("Training failed: " +:+ status job)]) (Ok tt)
| ListRaised d0 pipeline_job job out e :
    Forall (fun ev => in_setup ev = true) d0 ->
    status job = "Completed" ->
    Trace (d0 ++ waited pipeline_job job out ++
           [JobsList (job_name job) (Raise e)]) (Raise e)
| NoTrainJob d0 pipeline_job job out child_jobs e :
    Forall (fun ev => in_setup ev = true) d0 ->
    status job = "Completed" ->
    select_train_job child_jobs = Raise e ->
    Trace (d0 ++ waited pipeline_job job out ++
           [JobsList (job_name job) (Ok child_jobs)]) (Raise e)
| ModelRequested d0 pipeline_job job out child_jobs train_job model r d2 outcome :
    Forall (fun ev => in_setup ev = true) d0 ->
    status job = "Completed" ->
    select_train_job child_jobs = Ok train_job ->
    model_path model = model_artifact_path train_job ->
    Forall (fun ev => in_publish ev = true) d2 ->
    Trace (d0 ++ waited pipeline_job job out ++
           JobsList (job_name job) (Ok child_jobs) ::
           ModelsCreate model r :: d2) outcome.

End Register.

(** ** Concrete worlds, to run the scripts on *)

Module ScoreExamples.
Import Score.

Definition row (x y : Z) : gmap string Cell :=
  <["x" := Num x]> (<["y" := Num y]> ∅).

Definition frame_a : DataFrame := mkDF ["x"; "y"] [row 1 2; row 3 4].
Definition frame_b : DataFrame := mkDF ["x"; "y"] [row 5 6; row 7 8].

(** A frame that already has a column named "prediction". *)
Definition frame_labelled : DataFrame :=
  mkDF ["x"; "prediction"]
       [<["x" := Num 1]> (<["prediction" := Str "old"]> ∅)].

(** A model that predicts 1 for every row. *)
Definition ones : Model :=
  {| predict := fun df => Ok (map (fun _ => Num 1) (rows df)) |}.

Definition frames (path : string) : DataFrame :=
  if bool_decide (path = "in/a.csv") then frame_a else frame_b.

(** A world where [in] is a directory with the given listing, every other
    path is a plain file, and every call succeeds. *)
Definition world (listing : list string) (read : string -> DataFrame) : Env :=
  {| load_model := fun _ => Ok ones;
     isdir := fun p => bool_decide (p = "in");
     listdir := fun _ => Ok listing;
     read_csv := fun p => Ok (read p);
     makedirs := fun _ => Ok tt;
     to_csv := fun _ _ => Ok tt |}.

Definition two_csv : Env := world ["b.csv"; "notes.txt"; "a.csv"; "C.CSV"] frames.
Definition no_csv : Env := world ["notes.txt"; "C.CSV"] frames.
Definition empty_dir : Env := world [] frames.
Definition labelled : Env := world ["a.csv"] (fun _ => frame_labelled).

(** The same world with a model file that cannot be loaded. *)
Definition no_model : Env :=
  {| load_model := fun _ => Raise (External "MlflowException");
     isdir := isdir no_csv;
     listdir := listdir no_csv;
     read_csv := read_csv no_csv;
     makedirs := makedirs no_csv;
     to_csv := to_csv no_csv |}.

Definition args_dir : Args :=
  {| input_data := "in"; output_data := "out"; model_path := "model" |}.

Definition args_file : Args :=
  {| input_data := "data.txt"; output_data := "out"; model_path := "model" |}.

End ScoreExamples.

Module RegisterExamples.
Import Register.

(** A platform that remembers the names of what was created on it: a
    [get] of a name it does not know raises, a create records the name. *)
Definition known (p : list string) (k : string) : bool := bool_decide (k ∈ p).

Definition not_found {A} : result A := Raise (External "ResourceNotFound").

(** The submitted job is returned with status [st]; its children are
    [children]. *)
Definition client (st : string) (children : list Job) (w : Workspace)
  : MLClient (list string) :=
  {| environments_get := fun n _ p =>
       (p, if known p ("env:" +:+ n)
           then Ok {| env_name := n; env_version := Some "1";
                      env_description := None; env_build := None |}
           else not_found);
     environments_create_or_update := fun e p =>
       (("env:" +:+ env_name e) :: p,
        Ok {| env_name := env_name e; env_version := Some "1";
              env_description := env_description e;
              env_build := env_build e |});
     components_get := fun n v p =>
       (p, if known p ("component:" +:+ n) then Ok (Command n v) else not_found);
     components_create_or_update := fun c p =>
       (("component:" +:+ comp_name c) :: p, Ok c);
     data_get := fun n _ p => (p, Ok {| data_name := n; data_id := "data-id" |});
     jobs_create_or_update := fun _ p =>
       (p, Ok {| job_name := "job-1"; display_name := "training";
                 status := st; studio_url := "https://studio/job-1" |});
     jobs_stream := fun _ p => (p, Ok None);
     jobs_list := fun _ p => (p, Ok children);
     models_create_or_update := fun m p =>
       (p, Ok {| model_path := model_path m; model_name := model_name m;
                 model_type := model_type m; model_id := Some "model-id";
                 model_version := Some "1" |});
     batch_endpoints_get := fun n p =>
       (p, if known p ("endpoint:" +:+ n)
           then Ok {| endpoint_name := n; defaults_deployment_name := None |}
           else not_found);
     batch_endpoints_begin_create_or_update_result := fun e p =>
       (("endpoint:" +:+ endpoint_name e) :: p, Ok e);
     batch_deployments_begin_create_or_update_result := fun d p => (p, Ok d) |}.

Definition full_config : Config :=
  list_to_map [("subscription_id", "sub"); ("resource_group", "rg");
               ("workspace_name", "ws"); ("cluster", "cpu");
               ("experiment", "exp"); ("datasource_name", "sales")].

(** A working directory with the given configuration and two YAML files. *)
Definition directory (config : Config) : Files :=
  {| json_load := fun _ => Ok config;
     load_component := fun path => Ok (Command path "1") |}.

Definition child (name display : string) : Job :=
  {| job_name := name; display_name := display; status := "Completed";
     studio_url := "" |}.

Definition children_with_match : list Job :=
  [child "c1" "prep_data"; child "c2" "My_Train_Job"; child "c3" "train_job_2"].

Definition children_without_match : list Job :=
  [child "c1" "prep_data"; child "c2" "fit"].

End RegisterExamples.

(** ** The ways a run of the scorer can end *)

Module ScoreRuns.
Import Score.

Definition loads (log : list Event) : list string :=
  omap (fun ev => match ev with LoadModel p => Some p | _ => None end) log.

Section Runs.

Variable env : Env.

(** One pass of the loop body on [file]: it reads as [df] and [scored] is
    what the pass appends to [results]; or the pass raises [e], in the
    read, in the prediction, or in the column assignment when the model
    returns a number of predictions that is not the number of rows. *)
Definition scores (model : Model) (file : string) (df scored : DataFrame)
  : Prop :=
  exists values,
    read_csv env file = Ok df /\
    predict model df = Ok values /\
    length values = length (rows df) /\
    scored = with_column df "prediction" values.

Definition fails (model : Model) (file : string) (e : Exn) : Prop :=
  read_csv env file = Raise e \/
  exists df,
    read_csv env file = Ok df /\
    (predict model df = Raise e \/
     exists values,
       predict model df = Ok values /\
       length values <> length (rows df) /\
       e = ValueError "Length of values does not match length of index").

(** The calls of a pass that scores, and of a pass that raises. *)
Definition scored_events (file : string) (df : DataFrame) : list Event :=
  [Print ("📄 Processing: " +:+ file); ReadCsv file; Predict df].

Definition failed_events (file : string) : list Event :=
  Print ("📄 Processing: " +:+ file) :: ReadCsv file ::
  match read_csv env file with
  | Ok df => [Predict df]
  | Raise _ => []
  end.

Definition loop_events (files : list string) (frames : list DataFrame)
  : list Event :=
  mjoin (zip_with scored_events files frames).

(** The calls up to the loading of the model, and from there to the loop. *)
Definition header (args : Args) : list Event :=
  [Print ("Input path: " +:+ input_data args);
   Print ("Output: " +:+ output_data args);
   Print ("Model path: " +:+ model_path args);
   LoadModel (model_path args)].

Definition listing (args : Args) : list Event :=
  Print "✅ Model loaded" ::
  (if isdir env (input_data args) then [ListDir (input_data args)] else []).

(** The input files, when the listing does not raise. *)
Definition files_of (args : Args) : result (list string) :=
  if isdir env (input_data args) then
    match listdir env (input_data args) with
    | Ok names => Ok (map (path_join (input_data args)) (csv_names names))
    | Raise e => Raise e
    end
  else Ok [input_data args].

Inductive Outcome (args : Args) : list Event -> result unit -> Prop :=
| LoadRaised e :
    load_model env (model_path args) = Raise e ->
    Outcome args (header args) (Raise e)
| ListingRaised model e :
    load_model env (model_path args) = Ok model ->
    files_of args = Raise e ->
    Outcome args (header args ++ listing args) (Raise e)
| FileRaised model before file after scored e :
    load_model env (model_path args) = Ok model ->
    files_of args = Ok (before ++ file :: after) ->
    Forall2 (fun f p => scores model f p.1 p.2) before scored ->
    fails model file e ->
    Outcome args
      (header args ++ listing args ++ loop_events before scored.*1 ++
       failed_events file) (Raise e)
| NothingToSave model :
    load_model env (model_path args) = Ok model ->
    files_of args = Ok [] ->
    Outcome args
      (header args ++ listing args ++ [Print "⚠️ No results to save"]) (Ok tt)
| MakedirsRaised model files scored e :
    load_model env (model_path args) = Ok model ->
    files_of args = Ok files -> files <> [] ->
    Forall2 (fun f p => scores model f p.1 p.2) files scored ->
    makedirs env (output_data args) = Raise e ->
    Outcome args
      (header args ++ listing args ++ loop_events files scored.*1 ++
       [MakeDirs (output_data args)]) (Raise e)
| WriteRaised model files scored final e :
    load_model env (model_path args) = Ok model ->
    files_of args = Ok files -> files <> [] ->
    Forall2 (fun f p => scores model f p.1 p.2) files scored ->
    concat scored.*2 = Ok final ->
    makedirs env (output_data args) = Ok tt ->
    to_csv env (output_file args) final = Raise e ->
    Outcome args
      (header args ++ listing args ++ loop_events files scored.*1 ++
       [MakeDirs (output_data args); ToCsv (output_file args) final])
      (Raise e)
| Saved model files scored final :
    load_model env (model_path args) = Ok model ->
    files_of args = Ok files -> files <> [] ->
    Forall2 (fun f p => scores model f p.1 p.2) files scored ->
    concat scored.*2 = Ok final ->
    makedirs env (output_data args) = Ok tt ->
    to_csv env (output_file args) final = Ok tt ->
    Outcome args
      (header args ++ listing args ++ loop_events files scored.*1 ++
       [MakeDirs (output_data args); ToCsv (output_file args) final;
        Print ("✅ Results saved to: " +:+ output_file args)]) (Ok tt).

End Runs.

End ScoreRuns.

Module ScoreFailures.
Import Score.

(** The world [two_csv] with "in/a.csv", the second file of the listing,
    unreadable. *)
Definition unreadable : Env :=
  {| load_model := load_model ScoreExamples.two_csv;
     isdir := isdir ScoreExamples.two_csv;
     listdir := listdir ScoreExamples.two_csv;
     read_csv := fun p =>
       if bool_decide (p = "in/a.csv") then Raise (External "ParserError")
       else read_csv ScoreExamples.two_csv p;
     makedirs := makedirs ScoreExamples.two_csv;
     to_csv := to_csv ScoreExamples.two_csv |}.



End ScoreFailures.

(** ** The ways a run of the registrar can end *)

Module RegisterRuns.
Import Register.

Definition is_endpoint_call (ev : Event) : bool :=
  match ev with
  | EndpointsGet _ _ | EndpointsCreate _ _ | DeploymentsCreate _ _ => true
  | _ => false
  end.

Section Publication.

(** What [publish] takes from the context, and the model it publishes. *)
Variables (experiment cluster_name : string) (score_component : Component)
          (model : Model).

Definition the_endpoint : string := experiment +:+ "-endpoint".
Definition the_deployment : string := experiment +:+ "-deployment".

Definition scoring_component : Component :=
  component (scoring_pipeline experiment cluster_name score_component model
                              (PipelineParameter "input_data")).

Definition deployment_of (pipeline_component : Component)
  : PipelineComponentBatchDeployment :=
  {| deployment_name := the_deployment;
     deployment_endpoint_name := the_endpoint;
     deployment_component := pipeline_component;
     continue_on_step_failure := false;
     default_compute := cluster_name |}.

Definition new_endpoint : BatchEndpoint :=
  {| endpoint_name := the_endpoint; defaults_deployment_name := None |}.

Definition with_default (endpoint : BatchEndpoint) : BatchEndpoint :=
  {| endpoint_name := endpoint_name endpoint;
     defaults_deployment_name := Some the_deployment |}.

(** The calls that leave the endpoint in place: it was found, or it was
    not and has been created. *)
Inductive EndpointReady : list Event -> Prop :=
| EndpointFound endpoint :
    EndpointReady [EndpointsGet the_endpoint (Ok endpoint);
                   Print ("Endpoint: " +:+ the_endpoint)]
| EndpointMade e endpoint :
    EndpointReady [EndpointsGet the_endpoint (Raise e);
                   EndpointsCreate new_endpoint (Ok endpoint);
                   Print ("Endpoint: " +:+ the_endpoint)].

(** The calls of [publish], with its outcome, by the call that ends it. *)
Inductive Published : list Event -> result unit -> Prop :=
| EndpointRaised e e' :
    Published [EndpointsGet the_endpoint (Raise e);
               EndpointsCreate new_endpoint (Raise e')] (Raise e')
| ComponentRaised ready e :
    EndpointReady ready ->
    Published (ready ++ [ComponentsCreate scoring_component (Raise e)])
              (Raise e)
| DeploymentRaised ready pc e :
    EndpointReady ready ->
    Published (ready ++ [ComponentsCreate scoring_component (Ok pc);
                         DeploymentsCreate (deployment_of pc) (Raise e)])
              (Raise e)
| LookupRaised ready pc made e :
    EndpointReady ready ->
    Published (ready ++ [ComponentsCreate scoring_component (Ok pc);
                         DeploymentsCreate (deployment_of pc) (Ok made);
                         EndpointsGet the_endpoint (Raise e)])
              (Raise e)
| DefaultRaised ready pc made endpoint e :
    EndpointReady ready ->
    Published (ready ++ [ComponentsCreate scoring_component (Ok pc);
                         DeploymentsCreate (deployment_of pc) (Ok made);
                         EndpointsGet the_endpoint (Ok endpoint);
                         EndpointsCreate (with_default endpoint) (Raise e)])
              (Raise e)
| DefaultSet ready pc made endpoint updated :
    EndpointReady ready ->
    Published (ready ++ [ComponentsCreate scoring_component (Ok pc);
                         DeploymentsCreate (deployment_of pc) (Ok made);
                         EndpointsGet the_endpoint (Ok endpoint);
                         EndpointsCreate (with_default endpoint) (Ok updated);
                         Print ("Deployment: " +:+ the_deployment)])
              (Ok tt).

End Publication.

(** The model [register_model] asks the platform to register. *)
Definition model_of (experiment : string) (train_job : Job) : Model :=
  {| model_path := model_artifact_path train_job;
     model_name := experiment +:+ "-model";
     model_type := MLFLOW_MODEL;
     model_id := None;
     model_version := None |}.

(** The job [train] submits. *)
Definition training_job (experiment cluster_name : string)
    (train_component : Component) (data : Data) : PipelineJob :=
  training_pipeline experiment cluster_name train_component
    (BoundInput {| input_type := URI_FILE; input_path := data_id data |}).

Section Continuation.

(** What [setup] left in the context. *)
Variables (experiment cluster_name : string)
          (train_component score_component : Component) (data : Data).

Let pipeline_job : PipelineJob :=
  training_job experiment cluster_name train_component data.

(** The calls of [main] after [setup], with the outcome of the run, by
    the step that ends it. *)
Inductive Continued : list Event -> result unit -> Prop :=
| AtSubmission e :
    Continued [JobsCreate pipeline_job (Raise e)] (Raise e)
| AtStream job e :
    Continued [JobsCreate pipeline_job (Ok job);
               Print ("Training job submitted: " +:+ studio_url job);
               JobsStream (job_name job) (Raise e)] (Raise e)
| AtStatus job out :
    status job <> "Completed" ->
    Continued (waited pipeline_job job out ++
               [Print ("Training failed: " +:+ status job)]) (Ok tt)
| AtListing job out e :
    status job = "Completed" ->
    Continued (waited pipeline_job job out ++
               [JobsList (job_name job) (Raise e)]) (Raise e)
| AtSelection job out child_jobs e :
    status job = "Completed" ->
    select_train_job child_jobs = Raise e ->
    Continued (waited pipeline_job job out ++
               [JobsList (job_name job) (Ok child_jobs)]) (Raise e)
| AtModel job out child_jobs train_job e :
    status job = "Completed" ->
    select_train_job child_jobs = Ok train_job ->
    Continued (waited pipeline_job job out ++
               [JobsList (job_name job) (Ok child_jobs);
                ModelsCreate (model_of experiment train_job) (Raise e)])
              (Raise e)
| AtPublication job out child_jobs train_job model d2 r :
    status job = "Completed" ->
    select_train_job child_jobs = Ok train_job ->
    Published experiment cluster_name score_component model d2 r ->
    Continued (waited pipeline_job job out ++
               [JobsList (job_name job) (Ok child_jobs);
                ModelsCreate (model_of experiment train_job) (Ok model);
                Print ("✅ Model: " +:+ model_name model +:+ ":" +:+
                       show (model_version model))] ++ d2) r.

End Continuation.

(** The component loaded from [yaml] was found on the platform, or was
    created there, and [registered] is what the platform returned. *)
Definition registered_from (files : Files) (yaml : string)
    (registered : Component) (log : list Event) : Prop :=
  exists c,
    load_component files yaml = Ok c /\
    (In (ComponentsGet (comp_name c) (comp_version c) (Ok registered)) log \/
     In (ComponentsCreate c (Ok registered)) log).

(** The names a call gives to what it registers or looks up after the
    training, for an experiment and a cluster. *)
Definition names_follow (experiment cluster_name : string) (ev : Event)
  : Prop :=
  match ev with
  | ModelsCreate m _ =>
      model_name m = experiment +:+ "-model" /\ model_type m = MLFLOW_MODEL
  | EndpointsGet name _ => name = experiment +:+ "-endpoint"
  | EndpointsCreate endpoint _ =>
      match defaults_deployment_name endpoint with
      | None => endpoint_name endpoint = experiment +:+ "-endpoint"
      | Some default => default = experiment +:+ "-deployment"
      end
  | DeploymentsCreate d _ =>
      deployment_name d = experiment +:+ "-deployment" /\
      deployment_endpoint_name d = experiment +:+ "-endpoint" /\
      default_compute d = cluster_name /\
      continue_on_step_failure d = false
  | _ => True
  end.

(** *** Calls that raised *)

Definition raised {A} (r : result A) : option Exn :=
  match r with Ok _ => None | Raise e => Some e end.

(** What a call raised, if it did. *)
Definition failure (ev : Event) : option Exn :=
  match ev with
  | Print _ => None
  | JsonLoad _ r => raised r
  | LoadComponent _ r => raised r
  | EnvironmentsGet _ _ r => raised r
  | EnvironmentsCreate _ r => raised r
  | ComponentsGet _ _ r => raised r
  | ComponentsCreate _ r => raised r
  | DataGet _ _ r => raised r
  | JobsCreate _ r => raised r
  | JobsStream _ r => raised r
  | JobsList _ r => raised r
  | ModelsCreate _ r => raised r
  | EndpointsGet _ r => raised r
  | EndpointsCreate _ r => raised r
  | DeploymentsCreate _ r => raised r
  end.

(** The lookups the script makes inside a [try]. *)
Definition is_lookup (ev : Event) : bool :=
  match ev with
  | EnvironmentsGet _ _ _ | ComponentsGet _ _ _ | EndpointsGet _ _ => true
  | _ => false
  end.

(** A run is fail-fast when a call of its own that raises, other than a
    lookup, is its last call and gives the run its outcome. *)
Definition fail_fast {P A} (m : Run (P:=P) A) : Prop :=
  forall s, exists d,
    log (m s).1 = log s ++ d /\
    forall ev e,
      In ev d -> failure ev = Some e -> is_lookup ev = false ->
      (m s).2 = Raise e /\ last d = Some ev.

End RegisterRuns.

(** A working directory whose [score.yaml] cannot be loaded, and what the
    example platform returns in a run where every call succeeds. *)
Module RegisterWorlds.
Import Register RegisterRuns RegisterExamples.

Definition broken_score_yaml : Files :=
  {| json_load := fun _ => Ok full_config;
     load_component := fun path =>
       if bool_decide (path = "score.yaml")
       then Raise (External "ValidationException")
       else Ok (Command path "1") |}.

Definition workspace : Workspace :=
  {| subscription_id := "sub"; resource_group_name := "rg";
     workspace_name := "ws" |}.

Definition sales : Data := {| data_name := "sales"; data_id := "data-id" |}.

Definition submitted : Job :=
  {| job_name := "job-1"; display_name := "training"; status := "Completed";
     studio_url := "https://studio/job-1" |}.

Definition registered_model : Model :=
  {| model_path := model_artifact_path (child "c2" "My_Train_Job");
     model_name := "exp-model";
     model_type := MLFLOW_MODEL;
     model_id := Some "model-id";
     model_version := Some "1" |}.

Definition deployment : PipelineComponentBatchDeployment :=
  deployment_of "exp" "cpu"
    (scoring_component "exp" "cpu" (Command "score.yaml" "1")
                       registered_model).

Definition default_endpoint : BatchEndpoint :=
  {| endpoint_name := "exp-endpoint";
     defaults_deployment_name := Some "exp-deployment" |}.

End RegisterWorlds.

(** * Facts about the string operations *)

Module PyStrFacts.
Import PyStr.

Lemma append_cons (c : ascii) (s t : string) :
  String c s +:+ t = String c (s +:+ t).
Proof. reflexivity. Qed.

Lemma append_empty_r (s : string) : s +:+ "" = s.
Proof. induction s as [|c s IH]; [reflexivity|]. rewrite append_cons. by f_equal. Qed.

Lemma append_assoc (a b c : string) : (a +:+ b) +:+ c = a +:+ (b +:+ c).
Proof.
  induction a as [|x a IH]; [reflexivity|].
  rewrite !append_cons. by f_equal.
Qed.

Lemma length_append (a b : string) :
  String.length (a +:+ b) = String.length a + String.length b.
Proof.
  induction a as [|x a IH]; [reflexivity|].
  rewrite append_cons. simpl. by rewrite IH.
Qed.

(** [startswith p s] holds exactly when [p] is a prefix of [s]. *)
Lemma startswith_spec (p s : string) :
  startswith p s = true <-> exists t, s = p +:+ t.
Proof.
  revert s. induction p as [|a p IH]; intros s.
  - split; [intros _; by exists s | done].
  - destruct s as [|b s]; simpl.
    + split; [done | intros [t Ht]; discriminate Ht].
    + rewrite andb_true_iff, bool_decide_eq_true, IH. split.
      * intros [-> [t ->]]. by exists t.
      * intros [t Ht]. rewrite append_cons in Ht.
        injection Ht as -> ->. split; [done | by exists t].
Qed.

(** [contains sub s] holds exactly when [sub] occurs in [s]. *)
Lemma contains_spec (sub s : string) :
  contains sub s = true <-> exists a b, s = a +:+ sub +:+ b.
Proof.
  split.
  - induction s as [|c s IH]; simpl; rewrite orb_true_iff.
    + intros [H|H]; [|done]. apply startswith_spec in H as [t Ht].
      by exists "", t.
    + intros [H|H].
      * apply startswith_spec in H as [t Ht]. by exists "", t.
      * destruct (IH H) as (a & b & ->). by exists (String c a), b.
  - intros (a & b & ->). induction a as [|c a IH].
    + assert (startswith sub ("" +:+ sub +:+ b) = true) as H
        by (apply startswith_spec; by exists b).
      destruct ("" +:+ sub +:+ b); simpl; by rewrite H.
    + rewrite append_cons. simpl. rewrite IH. apply orb_true_r.
Qed.

Lemma drop_append (p s : string) : drop (String.length p) (p +:+ s) = s.
Proof. induction p as [|c p IH]; [reflexivity|]. by rewrite append_cons. Qed.

Lemma drop_is_suffix (n : nat) (s : string) : exists p, s = p +:+ drop n s.
Proof.
  revert s. induction n as [|n IH]; intros s.
  - by exists "".
  - destruct s as [|c s]; [by exists ""|].
    destruct (IH s) as [p Hp]. exists (String c p).
    rewrite append_cons. simpl. by f_equal.
Qed.

(** [endswith suf s] holds exactly when [suf] is a suffix of [s]. *)
Lemma endswith_spec (suf s : string) :
  endswith suf s = true <-> exists p, s = p +:+ suf.
Proof.
  unfold endswith. rewrite andb_true_iff, bool_decide_eq_true. split.
  - intros [_ H]. destruct (drop_is_suffix (String.length s - String.length suf) s)
      as [p Hp]. exists p. by rewrite H in Hp.
  - intros [p ->]. rewrite length_append. split.
    + apply Nat.leb_le. lia.
    + replace (String.length p + String.length suf - String.length suf)
        with (String.length p) by lia.
      apply drop_append.
Qed.

Lemma lower_append (a b : string) : lower (a +:+ b) = lower a +:+ lower b.
Proof.
  induction a as [|c a IH]; [reflexivity|].
  rewrite append_cons. simpl. rewrite append_cons. by f_equal.
Qed.

Lemma lower_split (s x y : string) :
  lower s = x +:+ y -> exists a b, s = a +:+ b /\ lower a = x /\ lower b = y.
Proof.
  revert s. induction x as [|c x IH]; intros s H.
  - by exists "", s.
  - destruct s as [|d s]; [discriminate H|].
    rewrite append_cons in H. simpl in H. injection H as Hc H.
    destruct (IH s H) as (a & b & -> & Ha & Hb).
    exists (String d a), b. rewrite append_cons. simpl. by rewrite Hc, Ha.
Qed.

(** Lower-casing and then searching is a case-insensitive search: the
    lower-cased string contains [sub] exactly when the string contains a
    word that lower-cases to [sub]. *)
Lemma contains_lower_spec (sub s : string) :
  contains sub (lower s) = true <->
  exists a w b, s = a +:+ w +:+ b /\ lower w = sub.
Proof.
  rewrite contains_spec. split.
  - intros (x & y & H). apply lower_split in H as (a & r & -> & _ & H).
    apply lower_split in H as (w & b & -> & Hw & _). by exists a, w, b.
  - intros (a & w & b & -> & <-). exists (lower a), (lower b).
    by rewrite !lower_append.
Qed.

End PyStrFacts.

(** * The batch scorer *)

Module ScoreFacts.
Import Score.

(** ** The log only grows, and its projections distribute over [++] *)

Lemma reads_app l1 l2 : reads (l1 ++ l2) = reads l1 ++ reads l2.
Proof. apply omap_app. Qed.

Lemma written_app l1 l2 : written (l1 ++ l2) = written l1 ++ written l2.
Proof. apply omap_app. Qed.

Lemma created_dirs_app l1 l2 :
  created_dirs (l1 ++ l2) = created_dirs l1 ++ created_dirs l2.
Proof. apply omap_app. Qed.

Lemma listed_app l1 l2 : listed (l1 ++ l2) = listed l1 ++ listed l2.
Proof. apply omap_app. Qed.

Lemma predicted_app l1 l2 :
  predicted (l1 ++ l2) = predicted l1 ++ predicted l2.
Proof. apply omap_app. Qed.

Create Rewrite HintDb log_proj.
#[export] Hint Rewrite reads_app written_app created_dirs_app listed_app
  predicted_app : log_proj.

Ltac proj := autorewrite with log_proj; simpl.

(** ** The loop over the input files *)

Section Loop.

Variable env : Env.
Variable model : Model.

(** One iteration on a file that reads and scores. *)
Lemma score_file_ok file df values log :
  read_csv env file = Ok df ->
  predict model df = Ok values ->
  length values = length (rows df) ->
  score_file env model file log =
    (log ++ [Print ("📄 Processing: " +:+ file); ReadCsv file; Predict df],
     Ok (with_column df "prediction" values)).
Proof.
  intros Hread Hpred Hlen.
  unfold score_file, bind, print, call, lift, set_column.
  rewrite Hread, Hpred, bool_decide_eq_true_2 by done.
  by rewrite <- !app_assoc.
Qed.

(** One iteration, whatever the file and the model do: the file is the
    only one read, and nothing is created or written. *)
Lemma score_file_any file log :
  exists delta,
    (score_file env model file log).1 = log ++ delta /\
    reads delta = [file] /\ written delta = [] /\ created_dirs delta = [] /\
    listed delta = [] /\
    predicted delta =
      match read_csv env file with Ok df => [df] | Raise _ => [] end.
Proof.
  unfold score_file, bind, print, call, lift.
  destruct (read_csv env file) as [df|e]; simpl.
  - destruct (predict model df) as [values|e]; simpl.
    + exists [Print ("📄 Processing: " +:+ file); ReadCsv file; Predict df].
      destruct (set_column df "prediction" values);
        simpl; by rewrite <- !app_assoc.
    + exists [Print ("📄 Processing: " +:+ file); ReadCsv file; Predict df].
      by rewrite <- !app_assoc.
  - exists [Print ("📄 Processing: " +:+ file); ReadCsv file].
    by rewrite <- !app_assoc.
Qed.

Lemma score_files_cons f files results log :
  score_files env model (f :: files) results log =
    match score_file env model f log with
    | (log', Ok df) => score_files env model files (results ++ [df]) log'
    | (log', Raise e) => (log', Raise e)
    end.
Proof. reflexivity. Qed.

(** The loop when every file reads and scores: the frames are appended to
    [results] in the order of [files]. *)
Lemma score_files_ok (frame : string -> DataFrame)
    (values : string -> list Cell) files :
  (forall f, f ∈ files ->
     read_csv env f = Ok (frame f) /\
     predict model (frame f) = Ok (values f) /\
     length (values f) = length (rows (frame f))) ->
  forall results log,
  exists delta,
    score_files env model files results log =
      (log ++ delta,
       Ok (results ++
           map (fun f => with_column (frame f) "prediction" (values f)) files)) /\
    reads delta = files /\ written delta = [] /\ created_dirs delta = [] /\
    listed delta = [] /\ predicted delta = map frame files.
Proof.
  induction files as [|f files IH]; intros Hall results log.
  - exists []. simpl. unfold ret. by rewrite !app_nil_r.
  - destruct (Hall f) as (Hread & Hpred & Hlen); [by left|].
    destruct (IH (fun g Hg => Hall g (list_elem_of_further _ _ _ Hg))
                 (results ++ [with_column (frame f) "prediction" (values f)])
                 (log ++ [Print ("📄 Processing: " +:+ f); ReadCsv f;
                          Predict (frame f)]))
      as (delta & Hrun & Hr & Hw & Hc & Hl & Hp).
    exists ([Print ("📄 Processing: " +:+ f); ReadCsv f; Predict (frame f)]
            ++ delta).
    rewrite score_files_cons.
    rewrite (score_file_ok f (frame f) (values f)) by done.
    rewrite Hrun. rewrite <- !app_assoc. simpl.
    repeat split; proj; by rewrite ?Hr, ?Hw, ?Hc, ?Hl, ?Hp.
Qed.

(** The loop, whatever the files and the model do: only a prefix of
    [files] is read, in order; a loop that returns has read them all and
    has appended one frame per file. *)
Lemma score_files_any files :
  forall results log,
  exists delta,
    (score_files env model files results log).1 = log ++ delta /\
    written delta = [] /\ created_dirs delta = [] /\ listed delta = [] /\
    reads delta `prefix_of` files /\
    forall rs, (score_files env model files results log).2 = Ok rs ->
      reads delta = files /\
      exists new, rs = results ++ new /\ length new = length files.
Proof.
  induction files as [|f files IH]; intros results log.
  - exists []. simpl. rewrite app_nil_r. split_and!; try done.
    intros rs [= <-]. split; [done|]. exists []. by rewrite app_nil_r.
  - destruct (score_file_any f log) as (d1 & Hlog & Hr & Hw & Hc & Hl & _).
    rewrite score_files_cons.
    destruct (score_file env model f log) as [log1 [df|e]] eqn:Hstep;
      simpl in Hlog; subst log1.
    + destruct (IH (results ++ [df]) (log ++ d1))
        as (d2 & Hlog2 & Hw2 & Hc2 & Hl2 & Hpre & Hok).
      exists (d1 ++ d2). rewrite Hlog2, <- app_assoc.
      split_and!; proj; rewrite ?Hr, ?Hw, ?Hc, ?Hl, ?Hw2, ?Hc2, ?Hl2;
        try done.
      * by apply prefix_cons.
      * intros rs Hrs. apply Hok in Hrs as (-> & new & -> & Hlen).
        split; [done|].
        exists (df :: new). rewrite <- app_assoc. simpl. by rewrite Hlen.
    + exists d1. simpl. split_and!; try done.
      rewrite Hr. by apply prefix_cons, prefix_nil.
Qed.

End Loop.

(** ** Concatenation of the scored frames *)

Lemma filter_known_columns (acc : list string) :
  filter (fun c => c ∉ acc) acc = [].
Proof.
  assert (forall l : list string, l ⊆ acc -> filter (fun c => c ∉ acc) l = [])
    as H; [|by apply H].
  induction l as [|c l IH]; intros Hsub; [done|].
  rewrite filter_cons_False.
  - apply IH. intros x Hx. apply Hsub. by right.
  - intros Hn. apply Hn, Hsub. by left.
Qed.

Lemma union_columns_same (cs : list string) : union_columns cs cs = cs.
Proof. unfold union_columns. by rewrite filter_known_columns, app_nil_r. Qed.

Lemma foldl_union_columns_same (cs : list string) (css : list (list string)) :
  Forall (fun cs' => cs' = cs) css -> foldl union_columns cs css = cs.
Proof.
  induction 1 as [|cs' css -> _ IH]; [done|].
  simpl. by rewrite union_columns_same.
Qed.

Lemma foldl_union_columns_keeps (c : string) (css : list (list string)) :
  forall acc, c ∈ acc -> c ∈ foldl union_columns acc css.
Proof.
  induction css as [|cs css IH]; intros acc Hc; [done|].
  simpl. apply IH. unfold union_columns. apply elem_of_app. by left.
Qed.

Lemma with_column_has (df : DataFrame) (c : string) (values : list Cell) :
  c ∈ columns (with_column df c values).
Proof.
  unfold with_column. simpl. case_bool_decide; [done|].
  apply elem_of_app. right. by left.
Qed.

Lemma with_column_new (df : DataFrame) (c : string) (values : list Cell) :
  c ∉ columns df -> columns (with_column df c values) = columns df ++ [c].
Proof. intros H. unfold with_column. simpl. by rewrite bool_decide_eq_false_2. Qed.

Lemma with_column_old (df : DataFrame) (c : string) (values : list Cell) :
  c ∈ columns df -> columns (with_column df c values) = columns df.
Proof. intros H. unfold with_column. simpl. by rewrite bool_decide_eq_true_2. Qed.

Lemma length_set_cells (c : string) rs (values : list Cell) :
  length values = length rs -> length (set_cells c rs values) = length rs.
Proof. intros H. unfold set_cells. rewrite length_zip_with. lia. Qed.



Lemma length_join_uniform {A} (ls : list (list A)) (m : nat) :
  Forall (fun l => length l = m) ls -> length (mjoin ls) = length ls * m.
Proof.
  induction 1 as [|l ls Hl _ IH]; [done|].
  simpl. rewrite length_app, Hl, IH. lia.
Qed.

(** ** The phases of [main] *)

Section Phases.

Variable env : Env.

Lemma main_unfold (args : Args) :
  main env args [] =
    let log0 := [Print ("Input path: " +:+ input_data args);
                 Print ("Output: " +:+ output_data args);
                 Print ("Model path: " +:+ model_path args);
                 LoadModel (model_path args)] in
    match load_model env (model_path args) with
    | Raise e => (log0, Raise e)
    | Ok model =>
        match input_files env (input_data args)
                (log0 ++ [Print "✅ Model loaded"]) with
        | (log1, Raise e) => (log1, Raise e)
        | (log1, Ok files) =>
            match score_files env model files [] log1 with
            | (log2, Raise e) => (log2, Raise e)
            | (log2, Ok results) => save_results env (output_data args) results log2
            end
        end
    end.
Proof.
  unfold main, bind, print, call. simpl.
  by destruct (load_model env (model_path args)).
Qed.

Lemma input_files_file (input : string) log :
  isdir env input = false -> input_files env input log = (log, Ok [input]).
Proof. intros H. unfold input_files. by rewrite H. Qed.

Lemma input_files_dir (input : string) log :
  isdir env input = true ->
  input_files env input log =
    (log ++ [ListDir input],
     match listdir env input with
     | Ok names => Ok (map (path_join input) (csv_names names))
     | Raise e => Raise e
     end).
Proof.
  intros H. unfold input_files, bind, call, ret. rewrite H.
  by destruct (listdir env input).
Qed.

Lemma save_results_none (output : string) log :
  save_results env output [] log = (log ++ [Print "⚠️ No results to save"], Ok tt).
Proof. reflexivity. Qed.

(** With at least one frame the frames are concatenated, the directory is
    made and the file written, in this order, each step stopping the run
    when it raises. *)
Lemma save_results_some (output : string) d ds log :
  let final := {| columns := foldl union_columns (columns d) (map columns ds);
                  rows := mjoin (map rows (d :: ds)) |} in
  let file := path_join output "scored_results.csv" in
  save_results env output (d :: ds) log =
    match makedirs env output with
    | Raise e => (log ++ [MakeDirs output], Raise e)
    | Ok _ =>
        match to_csv env file final with
        | Raise e => (log ++ [MakeDirs output; ToCsv file final], Raise e)
        | Ok _ =>
            (log ++ [MakeDirs output; ToCsv file final;
                     Print ("✅ Results saved to: " +:+ file)], Ok tt)
        end
    end.
Proof.
  intros final file. subst final file.
  unfold save_results, concat, bind, lift, print, call. cbv beta iota zeta.
  destruct (makedirs env output); [|done].
  destruct (to_csv env _ _); by rewrite <- !app_assoc.
Qed.

(** A run in which the model loads, the input files are [files] (at least
    one), each reads and scores, and the output can be written. *)
Lemma main_scores_files (args : Args) (model : Model) (files : list string)
    (frame : string -> DataFrame) (values : string -> list Cell) log1 :
  load_model env (model_path args) = Ok model ->
  input_files env (input_data args)
    ([Print ("Input path: " +:+ input_data args);
      Print ("Output: " +:+ output_data args);
      Print ("Model path: " +:+ model_path args);
      LoadModel (model_path args)] ++ [Print "✅ Model loaded"])
    = (log1, Ok files) ->
  files <> [] ->
  (forall f, f ∈ files ->
     read_csv env f = Ok (frame f) /\
     predict model (frame f) = Ok (values f) /\
     length (values f) = length (rows (frame f))) ->
  makedirs env (output_data args) = Ok tt ->
  (forall df, to_csv env (output_file args) df = Ok tt) ->
  exists delta final,
    main env args [] =
      (log1 ++ delta ++
       [MakeDirs (output_data args); ToCsv (output_file args) final;
        Print ("✅ Results saved to: " +:+ output_file args)], Ok tt) /\
    concat (map (fun f => with_column (frame f) "prediction" (values f)) files)
      = Ok final /\
    reads delta = files /\ written delta = [] /\ created_dirs delta = [] /\
    listed delta = [] /\ predicted delta = map frame files.
Proof.
  intros Hload Hin Hne Hfiles Hmk Hcsv.
  rewrite main_unfold. cbv zeta. rewrite Hload, Hin.
  destruct (score_files_ok env model frame values files Hfiles [] log1)
    as (delta & Hrun & Hproj).
  rewrite Hrun, app_nil_l.
  destruct files as [|f files]; [done|].
  rewrite !map_cons, save_results_some, Hmk.
  fold (output_file args). rewrite Hcsv, <- app_assoc.
  by eexists _, _.
Qed.

(** The header of every run, up to the attempt to load the model. *)
Lemma input_files_any (input : string) log :
  exists d,
    (input_files env input log).1 = log ++ d /\
    reads d = [] /\ written d = [] /\ created_dirs d = [] /\ predicted d = [] /\
    listed d = (if isdir env input then [input] else []).
Proof.
  destruct (isdir env input) eqn:Hdir.
  - rewrite input_files_dir by done. by exists [ListDir input].
  - rewrite input_files_file by done. exists []. by rewrite app_nil_r.
Qed.

(** A run that returns went through every phase. *)
Lemma main_ok_inv (args : Args) :
  (main env args []).2 = Ok tt ->
  exists model files pre delta results,
    load_model env (model_path args) = Ok model /\
    input_files env (input_data args)
      ([Print ("Input path: " +:+ input_data args);
        Print ("Output: " +:+ output_data args);
        Print ("Model path: " +:+ model_path args);
        LoadModel (model_path args)] ++ [Print "✅ Model loaded"])
      = (pre, Ok files) /\
    reads pre = [] /\ written pre = [] /\ created_dirs pre = [] /\
    reads delta = files /\ written delta = [] /\ created_dirs delta = [] /\
    length results = length files /\
    main env args [] =
      save_results env (output_data args) results (pre ++ delta).
Proof.
  rewrite main_unfold. cbv zeta.
  destruct (load_model env (model_path args)) as [model|e]; [|done].
  match goal with |- context [input_files env ?i ?l] =>
    destruct (input_files_any i l) as (d & Hd & Hr & Hw & Hc & _);
    destruct (input_files env i l) as [pre [files|e]] eqn:Hin end; [|done].
  simpl in Hd. subst pre.
  match goal with |- context [score_files env model files [] ?l] =>
    destruct (score_files_any env model files [] l)
      as (delta & Hlog & Hw2 & Hc2 & _ & _ & Hok);
    destruct (score_files env model files [] l) as [log2 [results|e]] end;
    [|done].
  simpl in Hlog. subst log2. intros Hrun.
  destruct (Hok results eq_refl) as (Hreads & new & -> & Hlen).
  eexists model, files, _, delta, new.
  split_and!; [done|reflexivity|..]; proj; rewrite ?Hr, ?Hw, ?Hc; done.
Qed.

Lemma concat_rows dfs final :
  concat dfs = Ok final -> rows final = mjoin (map rows dfs).
Proof. destruct dfs; [done|]. by intros [= <-]. Qed.

Lemma concat_columns d ds final :
  concat (d :: ds) = Ok final ->
  columns final = foldl union_columns (columns d) (map columns ds).
Proof. by intros [= <-]. Qed.

End Phases.

End ScoreFacts.

Module ScoreClaims.
Import Score ScoreFacts.

(** C1, amended.  A directory with [N >= 1] names ending in ".csv", each
    read as a frame of [M] rows, with a model that loads and returns one
    prediction per row and an output directory and file that can be
    written: the run returns, writes exactly one file, [output_file], whose
    frame has [N * M] rows, namely the rows of the files in listing order,
    each with its prediction; "prediction" is a column of it, and it is the
    one column added when the inputs share their columns and do not have it
    yet. *)
Theorem main_scores_directory (env : Env) (args : Args) (names : list string)
    (model : Model) (frame : string -> DataFrame)
    (values : string -> list Cell) (N M : nat) :
  isdir env (input_data args) = true ->
  listdir env (input_data args) = Ok names ->
  length (csv_names names) = N ->
  1 <= N ->
  load_model env (model_path args) = Ok model ->
  (forall file, file ∈ map (path_join (input_data args)) (csv_names names) ->
     read_csv env file = Ok (frame file) /\
     length (rows (frame file)) = M /\
     predict model (frame file) = Ok (values file) /\
     length (values file) = M) ->
  makedirs env (output_data args) = Ok tt ->
  (forall df, to_csv env (output_file args) df = Ok tt) ->
  let files := map (path_join (input_data args)) (csv_names names) in
  exists log final,
    main env args [] = (log, Ok tt) /\
    written log = [(output_file args, final)] /\
    reads log = files /\
    length (rows final) = N * M /\
    rows final =
      mjoin (map (fun file => set_cells "prediction" (rows (frame file))
                                        (values file)) files) /\
    "prediction" ∈ columns final /\
    (forall cs, "prediction" ∉ cs ->
       (forall file, file ∈ files -> columns (frame file) = cs) ->
       columns final = cs ++ ["prediction"]).
Proof.
  intros Hdir Hlist HN Hpos Hload Hfiles Hmk Hcsv files.
  assert (length files = N) as Hlen by (unfold files; by rewrite length_map).
  destruct (main_scores_files env args model files frame values
              (([Print ("Input path: " +:+ input_data args);
                 Print ("Output: " +:+ output_data args);
                 Print ("Model path: " +:+ model_path args);
                 LoadModel (model_path args)] ++ [Print "✅ Model loaded"]) ++
               [ListDir (input_data args)]))
    as (delta & final & Hrun & Hcat & Hr & Hw & Hc & _ & _); try done.
  { by rewrite input_files_dir, Hlist. }
  { intros ->. simpl in Hlen. lia. }
  { intros f Hf. destruct (Hfiles f Hf) as (? & ? & ? & ?).
    split_and!; [done..|congruence]. }
  set (scored := fun f => with_column (frame f) "prediction" (values f)) in *.
  eexists _, final. split; [exact Hrun|].
  split_and!; proj; rewrite ?Hr, ?Hw, ?Hc, ?app_nil_r; try done.
  - rewrite (concat_rows _ _ Hcat).
    rewrite <- Hlen, <- (length_map scored files),
      <- (length_map rows (map scored files)).
    apply length_join_uniform, Forall_forall. intros rs Hrs.
    apply list_elem_of_fmap in Hrs as (d & -> & Hd).
    apply list_elem_of_fmap in Hd as (f & -> & Hf).
    destruct (Hfiles f Hf) as (_ & HM & _ & HV).
    simpl. rewrite length_set_cells; congruence.
  - rewrite (concat_rows _ _ Hcat). by rewrite <- list_fmap_compose.
  - destruct files as [|f0 files']; [simpl in Hlen; lia|].
    rewrite (concat_columns _ _ _ Hcat).
    apply foldl_union_columns_keeps, with_column_has.
  - intros cs Hcs Hsame.
    assert (forall f, f ∈ files -> columns (scored f) = cs ++ ["prediction"])
      as Hcols.
    { intros f Hf. unfold scored. rewrite with_column_new;
        rewrite (Hsame f Hf); done. }
    destruct files as [|f0 files']; [simpl in Hlen; lia|].
    rewrite (concat_columns _ _ _ Hcat), Hcols by (by left).
    apply foldl_union_columns_same, Forall_forall. intros cs' Hin.
    apply list_elem_of_fmap in Hin as (d & -> & Hd).
    apply list_elem_of_fmap in Hd as (f & -> & Hf).
    apply Hcols. by right.
Qed.

Lemma main_scores_directory_witness :
  let files := map (path_join "in") (csv_names ["b.csv"; "notes.txt"; "a.csv"; "C.CSV"]) in
  exists log final,
    main ScoreExamples.two_csv ScoreExamples.args_dir [] = (log, Ok tt) /\
    written log = [(output_file ScoreExamples.args_dir, final)] /\
    reads log = files /\
    length (rows final) = 2 * 2 /\
    rows final =
      mjoin (map (fun file => set_cells "prediction"
                                (rows (ScoreExamples.frames file))
                                [Num 1; Num 1]) files) /\
    "prediction" ∈ columns final /\
    (forall cs, "prediction" ∉ cs ->
       (forall file, file ∈ files -> columns (ScoreExamples.frames file) = cs) ->
       columns final = cs ++ ["prediction"]).
Proof.
  apply (main_scores_directory ScoreExamples.two_csv ScoreExamples.args_dir
           ["b.csv"; "notes.txt"; "a.csv"; "C.CSV"] ScoreExamples.ones
           ScoreExamples.frames (fun _ => [Num 1; Num 1]) 2 2).
  - reflexivity.
  - reflexivity.
  - reflexivity.
  - lia.
  - reflexivity.
  - intros file Hf. apply list_elem_of_In in Hf. vm_compute in Hf.
    destruct Hf as [<-|[<-|[]]]; repeat split; reflexivity.
  - reflexivity.
  - reflexivity.
Defined.

(** C1 as stated fails in two ways.  A directory with no ".csv" name
    (N = 0) is scored by a run that returns and writes no file at all.
    A file that already has a "prediction" column gets that column
    overwritten: the frame written has the columns of the frame read, none
    added. *)
Lemma directory_claim_fails :
  (isdir ScoreExamples.empty_dir "in" = true /\
   listdir ScoreExamples.empty_dir "in" = Ok [] /\
   (main ScoreExamples.empty_dir ScoreExamples.args_dir []).2 = Ok tt /\
   written (main ScoreExamples.empty_dir ScoreExamples.args_dir []).1 = []) /\
  (isdir ScoreExamples.labelled "in" = true /\
   listdir ScoreExamples.labelled "in" = Ok ["a.csv"] /\
   read_csv ScoreExamples.labelled "in/a.csv" = Ok ScoreExamples.frame_labelled /\
   exists final,
     written (main ScoreExamples.labelled ScoreExamples.args_dir []).1 =
       [("out/scored_results.csv", final)] /\
     columns final = columns ScoreExamples.frame_labelled).
Proof.
  split.
  - repeat split; reflexivity.
  - repeat split; try reflexivity. eexists. split; reflexivity.
Qed.

(** C4.  A directory whose listing has no name ending in ".csv": nothing
    is read, no directory is made and no file is written; when the model
    loads, the run returns and its last line is the warning, and when it
    does not, the run stops there with what the loader raised. *)
Theorem main_no_csv_warns (env : Env) (args : Args) (names : list string) :
  isdir env (input_data args) = true ->
  listdir env (input_data args) = Ok names ->
  csv_names names = [] ->
  let run := main env args [] in
  reads run.1 = [] /\ created_dirs run.1 = [] /\ written run.1 = [] /\
  match load_model env (model_path args) with
  | Ok _ =>
      run.2 = Ok tt /\ last run.1 = Some (Print "⚠️ No results to save") /\
      "⚠️ No results to save" ∈ printed run.1
  | Raise e => run.2 = Raise e
  end.
Proof.
  intros Hdir Hlist Hnone run. subst run.
  rewrite main_unfold. cbv zeta.
  destruct (load_model env (model_path args)) as [model|e]; [|done].
  rewrite input_files_dir, Hlist, Hnone by done.
  simpl. split_and!; try done. set_solver.
Qed.

Lemma main_no_csv_warns_witness :
  let run := main ScoreExamples.no_csv ScoreExamples.args_dir [] in
  reads run.1 = [] /\ created_dirs run.1 = [] /\ written run.1 = [] /\
  run.2 = Ok tt /\ last run.1 = Some (Print "⚠️ No results to save") /\
  "⚠️ No results to save" ∈ printed run.1.
Proof.
  apply (main_no_csv_warns ScoreExamples.no_csv ScoreExamples.args_dir
           ["notes.txt"; "C.CSV"]); reflexivity.
Defined.

(** C7.  An input path that is not a directory: no directory is listed;
    when the model loads, that path is the one file read, and its frame the
    one frame given to the model; when it does not, nothing is read. *)
Theorem main_single_file (env : Env) (args : Args) :
  isdir env (input_data args) = false ->
  let run := main env args [] in
  listed run.1 = [] /\
  match load_model env (model_path args) with
  | Ok _ =>
      reads run.1 = [input_data args] /\
      predicted run.1 =
        match read_csv env (input_data args) with
        | Ok df => [df]
        | Raise _ => []
        end
  | Raise e => reads run.1 = [] /\ run.2 = Raise e
  end.
Proof.
  intros Hdir run. subst run. rewrite main_unfold. cbv zeta.
  destruct (load_model env (model_path args)) as [model|e]; [|done].
  rewrite input_files_file by done.
  match goal with |- context [score_files env model _ [] ?l] =>
    rewrite (score_files_cons env model (input_data args) [] [] l);
    destruct (score_file_any env model (input_data args) l)
      as (d & Hd & Hr & Hw & Hc & Hl & Hp);
    destruct (score_file env model (input_data args) l) as [log1 [df|e]] end;
    simpl in Hd; subst log1.
  - simpl score_files. unfold ret. rewrite save_results_some.
    destruct (makedirs env (output_data args));
      [destruct (to_csv env _ _)|]; simpl; proj;
      by rewrite ?Hr, ?Hl, ?Hp, ?app_nil_r.
  - simpl; proj. by rewrite ?Hr, ?Hl, ?Hp.
Qed.

Lemma main_single_file_witness :
  let run := main ScoreExamples.two_csv ScoreExamples.args_file [] in
  listed run.1 = [] /\ reads run.1 = ["data.txt"] /\
  predicted run.1 = [ScoreExamples.frame_b].
Proof.
  apply (main_single_file ScoreExamples.two_csv ScoreExamples.args_file).
  reflexivity.
Defined.

(** The written file sits directly in the output directory. *)
Lemma output_file_in_directory (args : Args) :
  output_file args =
    (if bool_decide (output_data args = "") ||
        PyStr.endswith "/" (output_data args)
     then output_data args else output_data args +:+ "/")
    +:+ "scored_results.csv".
Proof.
  unfold output_file, path_join. simpl PyStr.startswith.
  destruct (bool_decide (output_data args = "") ||
            PyStr.endswith "/" (output_data args)); [done|].
  by rewrite PyStrFacts.append_assoc.
Qed.

(** C9.  A successful scoring run, one that returns after reading at
    least one file: its last three steps make the directory [output_data]
    (with parents, an existing one being accepted), write the frame to
    "scored_results.csv" directly inside it, and report it; no other
    directory is made and no other file written. *)
Theorem main_output_location (env : Env) (args : Args) :
  (main env args []).2 = Ok tt ->
  reads (main env args []).1 <> [] ->
  exists pre final,
    (main env args []).1 =
      pre ++ [MakeDirs (output_data args); ToCsv (output_file args) final;
              Print ("✅ Results saved to: " +:+ output_file args)] /\
    created_dirs pre = [] /\ written pre = [] /\
    created_dirs (main env args []).1 = [output_data args] /\
    written (main env args []).1 = [(output_file args, final)] /\
    output_file args =
      (if bool_decide (output_data args = "") ||
          PyStr.endswith "/" (output_data args)
       then output_data args else output_data args +:+ "/")
      +:+ "scored_results.csv".
Proof.
  intros Hok Hreads.
  destruct (main_ok_inv env args Hok)
    as (model & files & pre & delta & results & _ & _ & Hr1 & Hw1 & Hc1 &
        Hr2 & Hw2 & Hc2 & Hlen & Hrun).
  rewrite Hrun in *. clear Hrun.
  destruct results as [|d ds].
  - rewrite save_results_none in Hreads. simpl in Hreads.
    exfalso. apply Hreads.
    destruct files; [|done]. proj. by rewrite Hr1, Hr2.
  - rewrite save_results_some in *. fold (output_file args) in *.
    destruct (makedirs env (output_data args)); [|done].
    destruct (to_csv env _ _); [|done].
    simpl. eexists _, _. split; [reflexivity|].
    split_and!; proj; rewrite ?Hc1, ?Hc2, ?Hw1, ?Hw2; try done.
    apply output_file_in_directory.
Qed.

Lemma main_output_location_witness :
  exists pre final,
    (main ScoreExamples.two_csv ScoreExamples.args_dir []).1 =
      pre ++ [MakeDirs "out"; ToCsv "out/scored_results.csv" final;
              Print "✅ Results saved to: out/scored_results.csv"] /\
    created_dirs pre = [] /\ written pre = [] /\
    created_dirs (main ScoreExamples.two_csv ScoreExamples.args_dir []).1
      = ["out"] /\
    written (main ScoreExamples.two_csv ScoreExamples.args_dir []).1
      = [("out/scored_results.csv", final)] /\
    "out/scored_results.csv" = "out/" +:+ "scored_results.csv".
Proof.
  apply (main_output_location ScoreExamples.two_csv ScoreExamples.args_dir).
  - reflexivity.
  - vm_compute. discriminate.
Defined.

(** C10.  The extension is looked at for the names of a directory listing
    only.  The input files are the path itself when it is not a directory,
    whatever its name, and otherwise the listed names that end in ".csv"
    (these four characters, so not ".CSV") joined to the directory.  A
    path that is not a directory is read and scored as the sole input:
    when every step succeeds, the one file written holds the rows of its
    frame with their predictions. *)
Theorem extension_filter_only_for_directories (env : Env) (args : Args)
    (log0 : list Event) :
  input_files env (input_data args) log0 =
    (if isdir env (input_data args)
     then (log0 ++ [ListDir (input_data args)],
           match listdir env (input_data args) with
           | Ok names => Ok (map (path_join (input_data args)) (csv_names names))
           | Raise e => Raise e
           end)
     else (log0, Ok [input_data args])) /\
  (forall names f,
     f ∈ csv_names names <-> f ∈ names /\ exists stem, f = stem +:+ ".csv") /\
  csv_names ["A.CSV"; "b.Csv"; "c.csv"; "d.csv.bak"; ".csv"] = ["c.csv"; ".csv"] /\
  (isdir env (input_data args) = false ->
   forall model df values,
     load_model env (model_path args) = Ok model ->
     read_csv env (input_data args) = Ok df ->
     predict model df = Ok values ->
     length values = length (rows df) ->
     makedirs env (output_data args) = Ok tt ->
     (forall d, to_csv env (output_file args) d = Ok tt) ->
     exists log final,
       main env args [] = (log, Ok tt) /\
       reads log = [input_data args] /\
       predicted log = [df] /\
       written log = [(output_file args, final)] /\
       rows final = set_cells "prediction" (rows df) values).
Proof.
  split_and!.
  - destruct (isdir env (input_data args)) eqn:Hdir.
    + by apply input_files_dir.
    + by apply input_files_file.
  - intros names f. unfold csv_names.
    rewrite list_elem_of_filter, PyStrFacts.endswith_spec. tauto.
  - reflexivity.
  - intros Hdir model df values Hload Hread Hpred Hlen Hmk Hcsv.
    destruct (main_scores_files env args model [input_data args]
                (fun _ => df) (fun _ => values)
                ([Print ("Input path: " +:+ input_data args);
                  Print ("Output: " +:+ output_data args);
                  Print ("Model path: " +:+ model_path args);
                  LoadModel (model_path args)] ++ [Print "✅ Model loaded"]))
      as (delta & final & Hrun & Hcat & Hr & Hw & Hc & _ & Hp); try done.
    { exact (input_files_file env _ _ Hdir). }
    { by intros f ->%list_elem_of_singleton. }
    eexists _, final. split; [exact Hrun|].
    split_and!; proj; rewrite ?Hr, ?Hw, ?Hp; try done.
    rewrite (concat_rows _ _ Hcat). simpl. by rewrite app_nil_r.
Qed.

Lemma extension_filter_only_for_directories_witness :
  exists log final,
    main ScoreExamples.two_csv ScoreExamples.args_file [] = (log, Ok tt) /\
    reads log = ["data.txt"] /\
    predicted log = [ScoreExamples.frame_b] /\
    written log = [("out/scored_results.csv", final)] /\
    rows final = set_cells "prediction" (rows ScoreExamples.frame_b)
                           [Num 1; Num 1].
Proof.
  destruct (extension_filter_only_for_directories ScoreExamples.two_csv
              ScoreExamples.args_file []) as (_ & _ & _ & H).
  apply (H eq_refl ScoreExamples.ones ScoreExamples.frame_b [Num 1; Num 1]);
    reflexivity.
Defined.

End ScoreClaims.

(** * The asset registrar *)

Module RegisterFacts.
Import Register.

Section Calculus.

Context {P : Type}.

Implicit Types s : @State P.

(** ** One step of a run *)

Lemma bind_remote {A B} (mk : result A -> Event) (op : P -> P * result A)
    (k : A -> Run B) s :
  bind (remote mk op) k s =
    match (op (platform s)).2 with
    | Ok a => k a {| platform := (op (platform s)).1;
                     log := log s ++ [mk (Ok a)] |}
    | Raise e => ({| platform := (op (platform s)).1;
                     log := log s ++ [mk (Raise e)] |}, Raise e)
    end.
Proof. unfold bind, remote. by destruct (op (platform s)) as [p' [a|e]]. Qed.

Lemma bind_lift {A B} (r : result A) (k : A -> Run B) s :
  bind (lift r) k s =
    match r with Ok a => k a s | Raise e => (s, Raise e) end.
Proof. unfold bind, lift. by destruct r. Qed.

Lemma bind_print {B} (line : string) (k : unit -> Run B) s :
  bind (print line) k s =
    k tt {| platform := platform s; log := log s ++ [Print line] |}.
Proof. reflexivity. Qed.

Lemma bind_ret {A B} (a : A) (k : A -> Run B) s : bind (ret a) k s = k a s.
Proof. reflexivity. Qed.

Lemma bind_local {A B} (mk : result A -> Event) (r : result A)
    (k : A -> Run B) s :
  bind (local mk r) k s =
    match r with
    | Ok a => k a {| platform := platform s; log := log s ++ [mk (Ok a)] |}
    | Raise e => ({| platform := platform s;
                     log := log s ++ [mk (Raise e)] |}, Raise e)
    end.
Proof. unfold bind, local. by destruct r. Qed.

Lemma bind_assoc {A B C} (m : Run A) (k1 : A -> Run B) (k2 : B -> Run C) s :
  bind (bind m k1) k2 s = bind m (fun a => bind (k1 a) k2) s.
Proof. unfold bind. by destruct (m s) as [s1 [a|e]]. Qed.

(** ** What a run appends to the log *)

Lemma emits_ret {A} Q (a : A) : emits (P:=P) Q (ret a).
Proof. intros s. exists []. by rewrite app_nil_r. Qed.

Lemma emits_lift {A} Q (r : result A) : emits (P:=P) Q (lift r).
Proof. intros s. exists []. by rewrite app_nil_r. Qed.

Lemma emits_remote {A} (Q : Event -> bool) (mk : result A -> Event)
    (op : P -> P * result A) :
  (forall r, Q (mk r) = true) -> emits Q (remote mk op).
Proof.
  intros HQ s. unfold remote. destruct (op (platform s)) as [p' r].
  exists [mk r]. split; [done|]. by repeat constructor.
Qed.

Lemma emits_local {A} (Q : Event -> bool) (mk : result A -> Event)
    (r : result A) :
  Q (mk r) = true -> emits (P:=P) Q (local mk r).
Proof. intros HQ s. exists [mk r]. split; [done|]. by repeat constructor. Qed.

Lemma emits_print (Q : Event -> bool) (line : string) :
  Q (Print line) = true -> emits (P:=P) Q (print line).
Proof. intros HQ. exact (emits_local Q (fun _ => Print line) (Ok tt) HQ). Qed.

Lemma emits_bind {A B} Q (m : Run A) (k : A -> Run B) :
  emits (P:=P) Q m -> (forall a, emits Q (k a)) -> emits Q (bind m k).
Proof.
  intros Hm Hk s. unfold bind.
  destruct (Hm s) as (d1 & Hlog1 & HQ1).
  destruct (m s) as [s1 [a|e]]; simpl in Hlog1.
  - destruct (Hk a s1) as (d2 & Hlog2 & HQ2).
    exists (d1 ++ d2). rewrite Hlog2, Hlog1, app_assoc.
    split; [done|]. by apply Forall_app.
  - by exists d1.
Qed.

Lemma emits_try_except {A} Q (m h : Run A) :
  emits (P:=P) Q m -> emits Q h -> emits Q (try_except m h).
Proof.
  intros Hm Hh s. unfold try_except.
  destruct (Hm s) as (d1 & Hlog1 & HQ1).
  destruct (m s) as [s1 [a|e]]; simpl in Hlog1.
  - by exists d1.
  - destruct (Hh s1) as (d2 & Hlog2 & HQ2).
    exists (d1 ++ d2). rewrite Hlog2, Hlog1, app_assoc.
    split; [done|]. by apply Forall_app.
Qed.

Lemma emits_weaken {A} (Q Q' : Event -> bool) (m : Run A) :
  (forall ev, Q ev = true -> Q' ev = true) -> emits (P:=P) Q m -> emits Q' m.
Proof.
  intros HQ Hm s. destruct (Hm s) as (d & Hlog & Hd).
  exists d. split; [done|]. eapply Forall_impl; [exact Hd|]. exact HQ.
Qed.

(** The log after [bind m k] extends the log after [m]. *)
Lemma bind_extends {A B} Q (m : Run A) (k : A -> Run B) s :
  (forall a, emits (P:=P) Q (k a)) ->
  log (m s).1 `prefix_of` log (bind m k s).1.
Proof.
  intros Hk. unfold bind. destruct (m s) as [s1 [a|e]]; [|done].
  destruct (Hk a s1) as (d & -> & _). by apply prefix_app_r.
Qed.

End Calculus.

Ltac emits_step :=
  first
    [ apply emits_bind
    | apply emits_try_except
    | apply emits_remote
    | apply emits_local
    | apply emits_print
    | apply emits_ret
    | apply emits_lift ].

Ltac emits_auto := cbv zeta; repeat (intros; cbv zeta; try emits_step); try reflexivity.

(** Reads the next keys of the configuration, with what the hypotheses
    say the mapping holds for them. *)
Ltac read_keys :=
  repeat (rewrite ?bind_assoc, ?bind_ret, bind_lift; unfold getitem at 1;
          match goal with
          | H : ?c !! ?k = _ |- context [?c !! ?k] => rewrite H
          end; cbv beta iota).

Section Parts.

Context {P : Type}.
Variable files : Files.
Variable MLClient_new : Workspace -> MLClient P.

Implicit Types s : @State P.
Implicit Types ctx : @Context P.

Lemma emits_register_environment (ml : MLClient P) name dockerfile :
  emits in_setup (register_environment ml name dockerfile).
Proof. unfold register_environment. emits_auto. Qed.

Lemma emits_register_component (ml : MLClient P) yaml :
  emits in_setup (register_component files ml yaml).
Proof. unfold register_component. emits_auto. Qed.

(** One registration, case by case: the lookup, then a create when the
    lookup raised and none when it returned. *)
Lemma register_environment_cases (ml : MLClient P) name dockerfile s :
  let got := environments_get ml name "latest" (platform s) in
  let new_env :=
    {| env_name := name;
       env_version := None;
       env_description := Some ("Environment for " +:+ name);
       env_build := Some {| build_path := ".";
                            dockerfile_path := dockerfile |} |} in
  let made := environments_create_or_update ml new_env got.1 in
  let shown env :=
    Print ("✅ Environment: " +:+ env_name env +:+ ":" +:+ show (env_version env)) in
  register_environment ml name dockerfile s =
    match got.2 with
    | Ok env =>
        ({| platform := got.1;
            log := log s ++ [EnvironmentsGet name "latest" (Ok env);
                             shown env] |}, Ok env)
    | Raise e =>
        match made.2 with
        | Ok env =>
            ({| platform := made.1;
                log := log s ++ [EnvironmentsGet name "latest" (Raise e);
                                 EnvironmentsCreate new_env (Ok env);
                                 shown env] |}, Ok env)
        | Raise e' =>
            ({| platform := made.1;
                log := log s ++ [EnvironmentsGet name "latest" (Raise e);
                                 EnvironmentsCreate new_env (Raise e')] |},
             Raise e')
        end
    end.
Proof.
  intros got new_env made shown. subst got made shown.
  unfold register_environment, bind, try_except, remote, print, local, ret.
  fold new_env.
  destruct (environments_get ml name "latest" (platform s)) as [p1 [env|e]];
    simpl; [by rewrite <- app_assoc|].
  destruct (environments_create_or_update ml new_env p1) as [p2 [env|e']];
    simpl; by rewrite <- !app_assoc.
Qed.

Lemma register_component_cases (ml : MLClient P) yaml s :
  let shown c :=
    Print ("✅ Component: " +:+ comp_name c +:+ ":" +:+ comp_version c) in
  register_component files ml yaml s =
    match load_component files yaml with
    | Raise e =>
        ({| platform := platform s;
            log := log s ++ [LoadComponent yaml (Raise e)] |}, Raise e)
    | Ok c =>
        let got :=
          components_get ml (comp_name c) (comp_version c) (platform s) in
        let made := components_create_or_update ml c got.1 in
        match got.2 with
        | Ok c' =>
            ({| platform := got.1;
                log := log s ++
                  [LoadComponent yaml (Ok c);
                   ComponentsGet (comp_name c) (comp_version c) (Ok c');
                   shown c'] |}, Ok c')
        | Raise e =>
            match made.2 with
            | Ok c' =>
                ({| platform := made.1;
                    log := log s ++
                      [LoadComponent yaml (Ok c);
                       ComponentsGet (comp_name c) (comp_version c) (Raise e);
                       ComponentsCreate c (Ok c');
                       shown c'] |}, Ok c')
            | Raise e' =>
                ({| platform := made.1;
                    log := log s ++
                      [LoadComponent yaml (Ok c);
                       ComponentsGet (comp_name c) (comp_version c) (Raise e);
                       ComponentsCreate c (Raise e')] |}, Raise e')
            end
        end
    end.
Proof.
  intros shown. subst shown.
  unfold register_component, bind, try_except, remote, print, local, ret.
  destruct (load_component files yaml) as [c|e]; [|done]. simpl.
  destruct (components_get ml (comp_name c) (comp_version c) (platform s))
    as [p1 [c'|e]]; simpl; [by rewrite <- !app_assoc|].
  destruct (components_create_or_update ml c p1) as [p2 [c'|e']];
    simpl; by rewrite <- !app_assoc.
Qed.

Lemma emits_setup : emits in_setup (setup files MLClient_new).
Proof.
  unfold setup, load_config, get_ml_client.
  repeat first [ apply emits_register_environment
               | apply emits_register_component
               | emits_step | progress intros | reflexivity ].
Qed.

Lemma emits_train ctx : emits in_train (train ctx).
Proof. unfold train. emits_auto. Qed.

Lemma emits_register_model ctx (job : Job) :
  emits in_register_model (register_model ctx job).
Proof. unfold register_model. emits_auto. Qed.

Lemma emits_publish ctx (model : Model) :
  emits in_publish (publish ctx model).
Proof. unfold publish. emits_auto. Qed.

(** ** The parts of [main], case by case *)

Lemma registrar_main_unfold s :
  main files MLClient_new s =
    match setup files MLClient_new s with
    | (s1, Raise e) => (s1, Raise e)
    | (s1, Ok ctx) =>
        match train ctx s1 with
        | (s2, Raise e) => (s2, Raise e)
        | (s2, Ok job) =>
            if bool_decide (status job ≠ "Completed") then
              ({| platform := platform s2;
                  log := log s2 ++ [Print ("Training failed: " +:+ status job)] |},
               Ok tt)
            else
              match register_model ctx job s2 with
              | (s3, Raise e) => (s3, Raise e)
              | (s3, Ok model) => publish ctx model s3
              end
        end
    end.
Proof.
  unfold main, bind.
  destruct (setup files MLClient_new s) as [s1 [ctx|e]]; [|done].
  destruct (train ctx s1) as [s2 [job|e]]; [|done].
  by destruct (bool_decide (status job ≠ "Completed")).
Qed.

Lemma train_cases ctx s :
  let pipeline_job :=
    training_pipeline (experiment ctx) (cluster_name ctx) (train_component ctx)
      (BoundInput {| input_type := URI_FILE;
                     input_path := data_id (data ctx) |}) in
  let submitted :=
    jobs_create_or_update (ml_client ctx) pipeline_job (platform s) in
  train ctx s =
    match submitted.2 with
    | Raise e =>
        ({| platform := submitted.1;
            log := log s ++ [JobsCreate pipeline_job (Raise e)] |}, Raise e)
    | Ok job =>
        let streamed := jobs_stream (ml_client ctx) (job_name job) submitted.1 in
        match streamed.2 with
        | Raise e =>
            ({| platform := streamed.1;
                log := log s ++
                  [JobsCreate pipeline_job (Ok job);
                   Print ("Training job submitted: " +:+ studio_url job);
                   JobsStream (job_name job) (Raise e)] |}, Raise e)
        | Ok out =>
            ({| platform := streamed.1;
                log := log s ++
                  [JobsCreate pipeline_job (Ok job);
                   Print ("Training job submitted: " +:+ studio_url job);
                   JobsStream (job_name job) (Ok out);
                   Print (show out)] |}, Ok job)
        end
    end.
Proof.
  intros pipeline_job submitted. unfold train. fold pipeline_job.
  rewrite bind_remote. fold submitted.
  destruct (submitted.2) as [job|e]; [|done].
  rewrite bind_print, bind_remote. simpl platform.
  destruct (jobs_stream (ml_client ctx) (job_name job) submitted.1).2
    as [out|e]; rewrite ?bind_print; unfold ret; simpl;
    by rewrite <- !app_assoc.
Qed.

Lemma register_model_cases ctx job s :
  let listing := jobs_list (ml_client ctx) (job_name job) (platform s) in
  register_model ctx job s =
    match listing.2 with
    | Raise e =>
        ({| platform := listing.1;
            log := log s ++ [JobsList (job_name job) (Raise e)] |}, Raise e)
    | Ok child_jobs =>
        match select_train_job child_jobs with
        | Raise e =>
            ({| platform := listing.1;
                log := log s ++ [JobsList (job_name job) (Ok child_jobs)] |},
             Raise e)
        | Ok train_job =>
            let new_model :=
              {| model_path := model_artifact_path train_job;
                 model_name := experiment ctx +:+ "-model";
                 model_type := MLFLOW_MODEL;
                 model_id := None;
                 model_version := None |} in
            let registered :=
              models_create_or_update (ml_client ctx) new_model listing.1 in
            match registered.2 with
            | Raise e =>
                ({| platform := registered.1;
                    log := log s ++
                      [JobsList (job_name job) (Ok child_jobs);
                       ModelsCreate new_model (Raise e)] |}, Raise e)
            | Ok model =>
                ({| platform := registered.1;
                    log := log s ++
                      [JobsList (job_name job) (Ok child_jobs);
                       ModelsCreate new_model (Ok model);
                       Print ("✅ Model: " +:+ model_name model +:+ ":" +:+
                              show (model_version model))] |}, Ok model)
            end
        end
    end.
Proof.
  intros listing. unfold register_model.
  rewrite bind_remote. fold listing.
  destruct (listing.2) as [child_jobs|e]; [|done].
  rewrite bind_lift.
  destruct (select_train_job child_jobs) as [train_job|e]; [|done].
  cbv zeta. rewrite bind_remote. simpl platform.
  destruct (models_create_or_update (ml_client ctx) _ listing.1).2
    as [model|e]; rewrite ?bind_print; unfold ret; simpl;
    by rewrite <- !app_assoc.
Qed.

Lemma main_extends_setup s :
  log (setup files MLClient_new s).1
    `prefix_of` log (main files MLClient_new s).1.
Proof.
  unfold main. apply (bind_extends (fun _ => true)). intros ctx.
  apply emits_bind.
  - eapply emits_weaken; [|apply emits_train]. done.
  - intros job. case_bool_decide.
    + by apply emits_print.
    + apply emits_bind.
      * eapply emits_weaken; [|apply emits_register_model]. done.
      * intros model. eapply emits_weaken; [|apply emits_publish]. done.
Qed.

(** [setup] and the keys it reads before its first platform call: with
    one of them missing the KeyError for the first missing one ends
    [setup] right after the configuration was loaded; with all of them
    present the environment lookup is the next call. *)
Lemma setup_early_keys (p0 : P) (config : Config) :
  json_load files "config.json" = Ok config ->
  match first_missing config with
  | Some k =>
      setup files MLClient_new (init p0) =
        ({| platform := p0; log := [JsonLoad "config.json" (Ok config)] |},
         Raise (KeyError k))
  | None =>
      exists got rest,
        log (setup files MLClient_new (init p0)).1 =
          JsonLoad "config.json" (Ok config) ::
          EnvironmentsGet "iGuard-env" "latest" got :: rest
  end.
Proof.
  intros Hjson. unfold first_missing, early_keys, setup, load_config.
  rewrite bind_local, Hjson. unfold get_ml_client. cbn [List.find].
  destruct (config !! "subscription_id") as [v1|] eqn:H1;
    [|simpl; by read_keys].
  destruct (config !! "resource_group") as [v2|] eqn:H2;
    [|simpl; by read_keys].
  destruct (config !! "workspace_name") as [v3|] eqn:H3;
    [|simpl; by read_keys].
  destruct (config !! "cluster") as [v4|] eqn:H4;
    [|simpl; by read_keys].
  destruct (config !! "experiment") as [v5|] eqn:H5;
    [|simpl; by read_keys].
  simpl. read_keys.
  match goal with
  | |- context [bind (register_environment ?ml ?n ?d) ?K ?s] =>
      assert (forall env, emits in_setup (K env)) as HK;
      [|pose proof (bind_extends in_setup (register_environment ml n d) K s HK)
          as [rest Hrest];
        rewrite Hrest, register_environment_cases; cbv zeta]
  end.
  { intros env.
    repeat first [ apply emits_register_component
                 | emits_step | progress intros | reflexivity ]. }
  destruct (environments_get _ _ _ _).2 as [env|e];
    [|destruct (environments_create_or_update _ _ _).2 as [env|e']];
    simpl; by eexists _, _.
Qed.

(** Every run of [main] leaves one of the logs of [Trace]. *)
Lemma main_trace (p0 : P) :
  Trace (log (main files MLClient_new (init p0)).1)
        (main files MLClient_new (init p0)).2.
Proof.
  rewrite registrar_main_unfold.
  destruct (emits_setup (init p0)) as (d0 & Hlog0 & Hd0).
  destruct (setup files MLClient_new (init p0)) as [s1 [ctx|e]];
    simpl in Hlog0; [|simpl; rewrite Hlog0; by constructor].
  rewrite train_cases. cbv zeta.
  destruct (jobs_create_or_update _ _ _).2 as [job|e];
    [|simpl; rewrite Hlog0; by constructor].
  destruct (jobs_stream _ _ _).2 as [out|e];
    [|simpl; rewrite Hlog0; by constructor].
  case_bool_decide as Hstatus.
  { simpl. rewrite Hlog0, <- app_assoc.
    by apply (TrainingFailed d0 _ job out). }
  rewrite register_model_cases. cbv zeta. simpl platform. simpl log.
  destruct (jobs_list _ _ _).2 as [child_jobs|e].
  2: { simpl. rewrite Hlog0, <- app_assoc. by apply (ListRaised d0 _ job out). }
  destruct (select_train_job child_jobs) as [train_job|e] eqn:Hsel.
  2: { simpl. rewrite Hlog0, <- app_assoc.
       by apply (NoTrainJob d0 _ job out child_jobs). }
  destruct (models_create_or_update _ _ _).2 as [model|e].
  - match goal with |- context [publish ctx model ?s3] =>
      destruct (emits_publish ctx model s3) as (d2 & Hlog2 & Hd2) end.
    rewrite Hlog2. simpl log. rewrite Hlog0, <- !app_assoc.
    apply (ModelRequested d0 _ job out child_jobs train_job); try done.
    constructor; [done|exact Hd2].
  - simpl. rewrite Hlog0, <- app_assoc.
    apply (ModelRequested d0 _ job out child_jobs train_job _ _ []); done.
Qed.

End Parts.

End RegisterFacts.

Module RegisterClaims.
Import Register RegisterFacts.

(** ** Finding a call in a log *)

Lemma Forall_weaken (Q Q' : Event -> Prop) (d : list Event) :
  (forall ev, Q ev -> Q' ev) -> Forall Q d -> Forall Q' d.
Proof. intros H Hd. eapply Forall_impl; [exact Hd | exact H]. Qed.

Lemma Forall_In (Q : Event -> Prop) (d : list Event) ev :
  Forall Q d -> In ev d -> Q ev.
Proof. rewrite Forall_forall. intros H Hin. by apply H, list_elem_of_In. Qed.

(** A log with a single call of kind [Q] has that call at one place. *)
Lemma In_only (Q : Event -> bool) ev d0 x rest :
  Q ev = true ->
  Forall (fun e => Q e = false) d0 ->
  Forall (fun e => Q e = false) rest ->
  In ev (d0 ++ x :: rest) -> ev = x.
Proof.
  intros HQ H0 Hrest Hin. apply in_app_iff in Hin as [Hin|[Hin|Hin]].
  - apply (Forall_In _ _ _ H0) in Hin. congruence.
  - done.
  - apply (Forall_In _ _ _ Hrest) in Hin. congruence.
Qed.

(** Closes [Forall Q l] for a log made of concrete calls and of parts
    known by their footprint. *)
Ltac footprint :=
  repeat first
    [ apply Forall_nil_2
    | apply Forall_app_2
    | apply Forall_cons_2
    | progress (unfold waited)
    | match goal with
      | H : Forall _ ?d |- Forall _ ?d =>
          refine (Forall_weaken _ _ _ _ H);
          intros []; simpl; intros; solve [discriminate | auto]
      end
    | done
    | by left
    | by right ].

Section Claims.

Context {P : Type}.
Variable files : Files.
Variable MLClient_new : Workspace -> MLClient P.

(** C3.  The status tested is the [status] of the job object the
    submission returned.  In every run in which that status is not
    "Completed", the log holds no model registration and no endpoint or
    deployment creation: every call is one of [setup] or [train].  The
    stream of the job was requested; when it returned, the run printed
    "Training failed: <status>" as its last step and returned, and when it
    raised, the run stopped there. *)
Theorem main_halts_on_incomplete_job (p0 : P) (pipeline_job : PipelineJob)
    (job : Job) :
  let run := main files MLClient_new (init p0) in
  In (JobsCreate pipeline_job (Ok job)) (log run.1) ->
  status job <> "Completed" ->
  Forall (fun ev => is_publication ev = false) (log run.1) /\
  Forall (fun ev => in_setup ev = true \/ in_train ev = true) (log run.1) /\
  exists streamed,
    In (JobsStream (job_name job) streamed) (log run.1) /\
    match streamed with
    | Ok _ =>
        run.2 = Ok tt /\
        last (log run.1) = Some (Print ("Training failed: " +:+ status job))
    | Raise e =>
        run.2 = Raise e /\
        last (log run.1) = Some (JobsStream (job_name job) (Raise e))
    end.
Proof.
  intros run. generalize (main_trace files MLClient_new p0). fold run.
  generalize (log run.1) (run.2). clear run. intros l r T Hin Hstatus.
  destruct T as [d0 e H0|d0 pj e H0|d0 pj j e H0|d0 pj j out H0 Hs
                |d0 pj j out e H0 Hs|d0 pj j out cs e H0 Hs Hsel
                |d0 pj j out cs tj m rm d2 outcome H0 Hs Hsel Hpath H2].
  - apply (Forall_In _ _ _ H0) in Hin. done.
  - apply (In_only is_submission) in Hin; [done|done|footprint..].
  - apply (In_only is_submission) in Hin; [|done|footprint..].
    injection Hin as <- <-. split_and!; [footprint..|].
    exists (Raise e). split.
    + apply in_app_iff. right. simpl. tauto.
    + by rewrite last_app.
  - unfold waited in *.
    apply (In_only is_submission) in Hin; [|done|footprint..].
    injection Hin as <- <-. split_and!; [footprint..|].
    exists (Ok out). split.
    + apply in_app_iff. right. simpl. tauto.
    + by rewrite last_app.
  - unfold waited in *.
    apply (In_only is_submission) in Hin; [|done|footprint..].
    by injection Hin as <- <-.
  - unfold waited in *.
    apply (In_only is_submission) in Hin; [|done|footprint..].
    by injection Hin as <- <-.
  - unfold waited in *.
    apply (In_only is_submission) in Hin; [|done|footprint..].
    by injection Hin as <- <-.
Qed.

(** C8.  A completed job for which the platform lists no child job:
    [child_jobs[0]] raises IndexError, which nothing catches; the listing
    is the last call of the run, so no model is registered and nothing is
    published. *)
Theorem main_no_child_jobs (p0 : P) (parent : string) :
  let run := main files MLClient_new (init p0) in
  In (JobsList parent (Ok [])) (log run.1) ->
  run.2 = Raise IndexError /\
  last (log run.1) = Some (JobsList parent (Ok [])) /\
  Forall (fun ev => is_publication ev = false) (log run.1) /\
  exists pipeline_job job,
    In (JobsCreate pipeline_job (Ok job)) (log run.1) /\
    status job = "Completed" /\ parent = job_name job.
Proof.
  intros run. generalize (main_trace files MLClient_new p0). fold run.
  generalize (log run.1) (run.2). clear run. intros l r T Hin.
  destruct T as [d0 e H0|d0 pj e H0|d0 pj j e H0|d0 pj j out H0 Hs
                |d0 pj j out e H0 Hs|d0 pj j out cs e H0 Hs Hsel
                |d0 pj j out cs tj m rm d2 outcome H0 Hs Hsel Hpath H2].
  - apply (Forall_In _ _ _ H0) in Hin. done.
  - apply (Forall_In (fun ev => is_listing ev = false)) in Hin;
      [done|footprint].
  - apply (Forall_In (fun ev => is_listing ev = false)) in Hin;
      [done|footprint].
  - apply (Forall_In (fun ev => is_listing ev = false)) in Hin;
      [done|footprint].
  - rewrite app_assoc in Hin.
    apply (In_only is_listing) in Hin; [done|done|footprint..].
  - rewrite app_assoc in Hin.
    apply (In_only is_listing) in Hin; [|done|footprint..].
    injection Hin as Hparent <-. injection Hsel as <-.
    split_and!; [done|by rewrite Hparent, !last_app|footprint|].
    exists pj, j. split_and!; [|done..].
    apply in_app_iff. right. simpl. tauto.
  - rewrite app_assoc in Hin.
    apply (In_only is_listing) in Hin; [|done|footprint..].
    injection Hin as <- <-. discriminate Hsel.
Qed.

(** [next] over the generator: the first child that matches, in listed
    order, and the default when none does. *)
Lemma find_first {A} (f : A -> bool) (l : list A) (x : A) :
  List.find f l = Some x ->
  exists before after,
    l = before ++ x :: after /\ f x = true /\
    Forall (fun y => f y = false) before.
Proof.
  induction l as [|y l IH]; [done|]. simpl.
  destruct (f y) eqn:Hy.
  - intros [= <-]. by exists [], l.
  - intros Hfind. destruct (IH Hfind) as (before & after & -> & Hx & Hb).
    exists (y :: before), after. split_and!; [done..|by constructor].
Qed.

Lemma find_none {A} (f : A -> bool) (l : list A) :
  List.find f l = None -> Forall (fun y => f y = false) l.
Proof.
  induction l as [|y l IH]; [done|]. simpl.
  destruct (f y) eqn:Hy; [done|]. intros Hfind. constructor; auto.
Qed.

Lemma select_train_job_spec (child_jobs : list Job) :
  child_jobs <> [] ->
  exists selected,
    select_train_job child_jobs = Ok selected /\
    ((exists before after,
        child_jobs = before ++ selected :: after /\
        is_train_job selected = true /\
        Forall (fun j => is_train_job j = false) before) \/
     (Forall (fun j => is_train_job j = false) child_jobs /\
      head child_jobs = Some selected)).
Proof.
  destruct child_jobs as [|j js]; [done|]. intros _.
  unfold select_train_job, next_train_job. cbn [first_item].
  destruct (List.find is_train_job (j :: js)) as [x|] eqn:Hfind.
  - exists x. split; [done|]. left. by apply find_first.
  - exists j. split; [done|]. right. split; [by apply find_none|done].
Qed.

(** A child matches when its display name holds, in any mix of upper and
    lower case, the word "train_job". *)
Lemma is_train_job_spec (j : Job) :
  is_train_job j = true <->
  exists a w b, display_name j = a +:+ w +:+ b /\ PyStr.lower w = "train_job".
Proof. apply PyStrFacts.contains_lower_spec. Qed.

(** C6.  A run that lists the child jobs does so after a job whose status
    is "Completed".  With at least one child, the child selected is the
    first one, in listed order, whose display name contains "train_job"
    whatever the case of its letters, and the first child when no display
    name does; the model is then registered with the path built from the
    name of the selected child. *)
Theorem main_selects_train_job (p0 : P) (parent : string)
    (child_jobs : list Job) :
  let run := main files MLClient_new (init p0) in
  In (JobsList parent (Ok child_jobs)) (log run.1) ->
  child_jobs <> [] ->
  exists selected model r,
    select_train_job child_jobs = Ok selected /\
    ((exists before after,
        child_jobs = before ++ selected :: after /\
        is_train_job selected = true /\
        Forall (fun j => is_train_job j = false) before) \/
     (Forall (fun j => is_train_job j = false) child_jobs /\
      head child_jobs = Some selected)) /\
    (forall j, is_train_job j = true <->
       exists a w b, display_name j = a +:+ w +:+ b /\
                     PyStr.lower w = "train_job") /\
    In (ModelsCreate model r) (log run.1) /\
    model_path model =
      "azureml://jobs/" +:+ job_name selected +:+
      "/outputs/artifacts/paths/model/" /\
    (forall model' r', In (ModelsCreate model' r') (log run.1) ->
       model' = model /\ r' = r) /\
    exists pipeline_job job,
      In (JobsCreate pipeline_job (Ok job)) (log run.1) /\
      status job = "Completed" /\ parent = job_name job.
Proof.
  intros run. generalize (main_trace files MLClient_new p0). fold run.
  generalize (log run.1) (run.2). clear run. intros l r T Hin Hne.
  destruct T as [d0 e H0|d0 pj e H0|d0 pj j e H0|d0 pj j out H0 Hs
                |d0 pj j out e H0 Hs|d0 pj j out cs e H0 Hs Hsel
                |d0 pj j out cs tj m rm d2 outcome H0 Hs Hsel Hpath H2].
  - apply (Forall_In _ _ _ H0) in Hin. done.
  - apply (Forall_In (fun ev => is_listing ev = false)) in Hin;
      [done|footprint].
  - apply (Forall_In (fun ev => is_listing ev = false)) in Hin;
      [done|footprint].
  - apply (Forall_In (fun ev => is_listing ev = false)) in Hin;
      [done|footprint].
  - rewrite app_assoc in Hin.
    apply (In_only is_listing) in Hin; [done|done|footprint..].
  - rewrite app_assoc in Hin.
    apply (In_only is_listing) in Hin; [|done|footprint..].
    injection Hin as <- <-.
    destruct (select_train_job_spec child_jobs Hne) as (x & Hx & _).
    congruence.
  - pose proof Hin as Hin'. rewrite app_assoc in Hin'.
    apply (In_only is_listing) in Hin'; [|done|footprint..].
    injection Hin' as Hparent <-.
    destruct (select_train_job_spec child_jobs Hne) as (x & Hx & Hwhich).
    assert (x = tj) as -> by congruence.
    exists tj, m, rm. split_and!; try done.
    + apply is_train_job_spec.
    + apply in_app_iff. right. apply in_app_iff. right. simpl. tauto.
    + intros m' r' Hm.
      replace (d0 ++ waited pj j out ++
               JobsList (job_name j) (Ok child_jobs) :: ModelsCreate m rm :: d2)
        with ((d0 ++ waited pj j out ++ [JobsList (job_name j) (Ok child_jobs)])
              ++ ModelsCreate m rm :: d2) in Hm
        by (by rewrite <- !app_assoc).
      apply (In_only is_model_registration) in Hm; [|done|footprint..].
      by injection Hm as -> ->.
    + exists pj, j. split_and!; [|done..].
      apply in_app_iff. right. simpl. tauto.
Qed.

(** C2.  One registration of an environment (looked up by name and the
    label "latest") or of a component (looked up by name and version):
    the lookup is the first platform call; when it raises, whatever it
    raises, the calls that follow hold exactly one create, of the
    environment built from the name or of the component that was loaded;
    when it returns, there is no create and the registration returns what
    the lookup returned. *)
Theorem register_get_or_create (ml : MLClient P) (s : State) :
  (forall name dockerfile,
     let got := (environments_get ml name "latest" (platform s)).2 in
     let run := register_environment ml name dockerfile s in
     exists new,
       log run.1 = log s ++ new /\
       head new = Some (EnvironmentsGet name "latest" got) /\
       match got with
       | Raise _ =>
           exists env r,
             creates new = [EnvironmentsCreate env r] /\ env_name env = name
       | Ok env => creates new = [] /\ run.2 = Ok env
       end) /\
  (forall yaml c,
     load_component files yaml = Ok c ->
     let got :=
       (components_get ml (comp_name c) (comp_version c) (platform s)).2 in
     let run := register_component files ml yaml s in
     exists new,
       log run.1 = log s ++ new /\
       new !! 1 = Some (ComponentsGet (comp_name c) (comp_version c) got) /\
       match got with
       | Raise _ => exists r, creates new = [ComponentsCreate c r]
       | Ok c' => creates new = [] /\ run.2 = Ok c'
       end).
Proof.
  split.
  - intros name dockerfile got run. subst got run.
    rewrite register_environment_cases. cbv zeta.
    destruct (environments_get ml name "latest" (platform s)).2 as [env|e].
    + eexists. by split_and!.
    + destruct (environments_create_or_update ml _ _).2 as [env|e'];
        (eexists; split_and!; [done..|]); by eexists _, _.
  - intros yaml c Hload got run. subst got run.
    rewrite register_component_cases, Hload. cbv zeta.
    destruct (components_get ml _ _ _).2 as [c'|e].
    + eexists. by split_and!.
    + destruct (components_create_or_update ml _ _).2 as [c'|e'];
        (eexists; split_and!; [done..|]); by eexists.
Qed.

(** C5, amended.  The keys are read where they are used, not when the
    configuration is loaded.  With the configuration loaded: when one of
    "subscription_id", "resource_group", "workspace_name", "cluster",
    "experiment" is missing, the run raises KeyError for the first missing
    one of them in this order, and the loading of the configuration is its
    only step, so no call reached the platform; when these five are
    there, as in a mapping that misses "datasource_name" only, the
    environment lookup on the platform is the next call. *)
Theorem main_missing_early_key (p0 : P) (config : Config) :
  json_load files "config.json" = Ok config ->
  let run := main files MLClient_new (init p0) in
  (forall k, In k early_keys -> config !! k = None ->
     is_Some (first_missing config)) /\
  match first_missing config with
  | Some k =>
      In k early_keys /\ config !! k = None /\
      run.2 = Raise (KeyError k) /\
      log run.1 = [JsonLoad "config.json" (Ok config)] /\
      Forall (fun ev => is_remote ev = false) (log run.1) /\
      platform run.1 = p0
  | None =>
      exists got rest,
        log run.1 = JsonLoad "config.json" (Ok config) ::
                    EnvironmentsGet "iGuard-env" "latest" got :: rest
  end.
Proof.
  intros Hjson run. split.
  - intros k Hk Hnone. unfold first_missing.
    destruct (List.find _ early_keys) as [k'|] eqn:Hfind; [by eexists|].
    apply find_none in Hfind.
    exfalso. rewrite Forall_forall in Hfind.
    specialize (Hfind k (proj2 (list_elem_of_In _ _) Hk)).
    by rewrite bool_decide_eq_true_2 in Hfind.
  - pose proof (setup_early_keys files MLClient_new p0 config Hjson) as Hsetup.
    destruct (first_missing config) as [k|] eqn:Hfirst.
    + unfold first_missing in Hfirst. apply find_some in Hfirst as [Hk Hnone].
      apply bool_decide_eq_true in Hnone.
      subst run. rewrite registrar_main_unfold, Hsetup. simpl.
      split_and!; try done. by repeat constructor.
    + destruct Hsetup as (got & rest & Hlog).
      destruct (main_extends_setup files MLClient_new (init p0)) as [more Hmore].
      fold run in Hmore. rewrite Hmore, Hlog. by eexists _, _.
Qed.

End Claims.

(** ** The claims on the example platform *)

Import RegisterExamples.

Lemma main_halts_on_incomplete_job_witness :
  let run := main (directory full_config) (client "Failed" []) (init []) in
  let job := {| job_name := "job-1"; display_name := "training";
                status := "Failed"; studio_url := "https://studio/job-1" |} in
  Forall (fun ev => is_publication ev = false) (log run.1) /\
  Forall (fun ev => in_setup ev = true \/ in_train ev = true) (log run.1) /\
  exists streamed,
    In (JobsStream (job_name job) streamed) (log run.1) /\
    match streamed with
    | Ok _ =>
        run.2 = Ok tt /\
        last (log run.1) = Some (Print ("Training failed: " +:+ status job))
    | Raise e =>
        run.2 = Raise e /\
        last (log run.1) = Some (JobsStream (job_name job) (Raise e))
    end.
Proof.
  apply (main_halts_on_incomplete_job (directory full_config)
           (client "Failed" []) []
           (training_pipeline "exp" "cpu" (Command "train.yaml" "1")
              (BoundInput {| input_type := URI_FILE; input_path := "data-id" |}))).
  - vm_compute. repeat (first [left; reflexivity | right]).
  - simpl. discriminate.
Defined.

Lemma main_no_child_jobs_witness :
  let run := main (directory full_config) (client "Completed" []) (init []) in
  run.2 = Raise IndexError /\
  last (log run.1) = Some (JobsList "job-1" (Ok [])) /\
  Forall (fun ev => is_publication ev = false) (log run.1) /\
  exists pipeline_job job,
    In (JobsCreate pipeline_job (Ok job)) (log run.1) /\
    status job = "Completed" /\ "job-1" = job_name job.
Proof.
  apply (main_no_child_jobs (directory full_config) (client "Completed" []) []).
  vm_compute. repeat (first [left; reflexivity | right]).
Defined.

Lemma main_selects_train_job_witness :
  let run := main (directory full_config)
                  (client "Completed" children_with_match) (init []) in
  exists selected model r,
    select_train_job children_with_match = Ok selected /\
    ((exists before after,
        children_with_match = before ++ selected :: after /\
        is_train_job selected = true /\
        Forall (fun j => is_train_job j = false) before) \/
     (Forall (fun j => is_train_job j = false) children_with_match /\
      head children_with_match = Some selected)) /\
    (forall j, is_train_job j = true <->
       exists a w b, display_name j = a +:+ w +:+ b /\
                     PyStr.lower w = "train_job") /\
    In (ModelsCreate model r) (log run.1) /\
    model_path model =
      "azureml://jobs/" +:+ job_name selected +:+
      "/outputs/artifacts/paths/model/" /\
    (forall model' r', In (ModelsCreate model' r') (log run.1) ->
       model' = model /\ r' = r) /\
    exists pipeline_job job,
      In (JobsCreate pipeline_job (Ok job)) (log run.1) /\
      status job = "Completed" /\ "job-1" = job_name job.
Proof.
  apply (main_selects_train_job (directory full_config)
           (client "Completed" children_with_match) []).
  - vm_compute. repeat (first [left; reflexivity | right]).
  - discriminate.
Defined.

Lemma register_get_or_create_witness :
  let s := init (P := list string) [] in
  let ml := client "Completed" []
              {| subscription_id := "sub"; resource_group_name := "rg";
                 workspace_name := "ws" |} in
  let run := register_component (directory full_config) ml "train.yaml" s in
  exists new,
    log run.1 = log s ++ new /\
    new !! 1 = Some (ComponentsGet "train.yaml" "1" not_found) /\
    exists r, creates new = [ComponentsCreate (Command "train.yaml" "1") r].
Proof.
  intros s ml run.
  destruct (register_get_or_create (directory full_config) ml s) as [_ H].
  apply (H "train.yaml" (Command "train.yaml" "1")). reflexivity.
Defined.

Lemma main_missing_early_key_witness :
  let config := delete "experiment" full_config in
  let run := main (directory config) (client "Completed" []) (init []) in
  (forall k, In k early_keys -> config !! k = None ->
     is_Some (first_missing config)) /\
  In "experiment" early_keys /\ config !! "experiment" = None /\
  run.2 = Raise (KeyError "experiment") /\
  log run.1 = [JsonLoad "config.json" (Ok config)] /\
  Forall (fun ev => is_remote ev = false) (log run.1) /\
  platform run.1 = [].
Proof.
  intros config run.
  assert (first_missing config = Some "experiment") as Hfirst
    by (vm_compute; reflexivity).
  pose proof (main_missing_early_key (directory config)
                (client "Completed" []) [] config eq_refl) as H.
  rewrite Hfirst in H. exact H.
Defined.

(** C5 as stated fails for "datasource_name".  On a platform where every
    call succeeds, a configuration that misses only that key raises its
    KeyError after six calls to the platform, three of them creates. *)
Lemma missing_datasource_name_after_remote_calls :
  let config := delete "datasource_name" full_config in
  let run := main (directory config) (client "Completed" []) (init []) in
  config !! "datasource_name" = None /\
  run.2 = Raise (KeyError "datasource_name") /\
  length (filter (fun ev => is_remote ev = true) (log run.1)) = 6 /\
  length (creates (log run.1)) = 3 /\
  platform run.1 =
    ["component:score.yaml"; "component:train.yaml"; "env:iGuard-env"].
Proof. vm_compute. repeat split; reflexivity. Qed.

End RegisterClaims.

(** * The batch scorer: every way a run can end *)

Module ScoreExtras.
Import Score ScoreFacts ScoreRuns.

Lemma loads_app l1 l2 : loads (l1 ++ l2) = loads l1 ++ loads l2.
Proof. apply omap_app. Qed.

#[export] Hint Rewrite loads_app : log_proj.

Lemma loop_events_nil (frames : list DataFrame) : loop_events [] frames = [].
Proof. reflexivity. Qed.

Lemma loop_events_cons f files df frames :
  loop_events (f :: files) (df :: frames) =
    scored_events f df ++ loop_events files frames.
Proof. reflexivity. Qed.

Section Loop.

Variable env : Env.
Variable model : Model.

(** A pass of the loop body either scores or fails. *)
Lemma score_file_cases (file : string) (log : list Event) :
  (exists df scored,
     scores env model file df scored /\
     score_file env model file log = (log ++ scored_events file df, Ok scored))
  \/
  (exists e,
     fails env model file e /\
     score_file env model file log = (log ++ failed_events env file, Raise e)).
Proof.
  unfold score_file, failed_events, scored_events, bind, print, call, lift,
    set_column, scores, fails.
  destruct (read_csv env file) as [df|e] eqn:Hread; simpl.
  - destruct (predict model df) as [values|e] eqn:Hpred; simpl.
    + case_bool_decide as Hlen.
      * left. exists df, (with_column df "prediction" values).
        split; [by exists values|]. by rewrite <- !app_assoc.
      * right. eexists. split; [|by rewrite <- !app_assoc].
        right. exists df. split; [done|]. right. by exists values.
    + right. exists e. split; [|by rewrite <- !app_assoc].
      right. exists df. split; [done|]. by left.
  - right. exists e. split; [by left|]. by rewrite <- !app_assoc.
Qed.

(** The loop either scores every file, or stops at the first one that
    fails, after scoring the ones before it. *)
Lemma score_files_cases (files : list string) :
  forall results log,
  (exists scored,
     Forall2 (fun f p => scores env model f p.1 p.2) files scored /\
     score_files env model files results log =
       (log ++ loop_events files scored.*1, Ok (results ++ scored.*2)))
  \/
  (exists before file after scored e,
     files = before ++ file :: after /\
     Forall2 (fun f p => scores env model f p.1 p.2) before scored /\
     fails env model file e /\
     score_files env model files results log =
       (log ++ loop_events before scored.*1 ++ failed_events env file,
        Raise e)).
Proof.
  induction files as [|f files IH]; intros results log.
  - left. exists []. split; [constructor|].
    cbn [score_files]. unfold ret. by rewrite loop_events_nil, !app_nil_r.
  - rewrite score_files_cons.
    destruct (score_file_cases f log) as [(df & sc & Hsc & ->)|(e & He & ->)].
    + destruct (IH (results ++ [sc]) (log ++ scored_events f df))
        as [(scored & Hall & ->)|(before & file & after & scored & e &
                                  -> & Hall & He & ->)].
      * left. exists ((df, sc) :: scored). split; [by constructor|].
        rewrite !fmap_cons, loop_events_cons. cbn [fst snd].
        by rewrite <- !app_assoc.
      * right. exists (f :: before), file, after, ((df, sc) :: scored), e.
        split_and!; [done|by constructor|done|].
        rewrite !fmap_cons, loop_events_cons. cbn [fst snd].
        by rewrite <- !app_assoc.
    + right. exists [], f, files, [], e.
      split_and!; [done|constructor|done|].
      by rewrite loop_events_nil.
Qed.

End Loop.

Section Outcomes.

Variable env : Env.

Lemma input_files_of (args : Args) (log : list Event) :
  input_files env (input_data args) (log ++ [Print "✅ Model loaded"]) =
    (log ++ listing env args, files_of env args).
Proof.
  unfold listing, files_of. destruct (isdir env (input_data args)) eqn:Hdir.
  - rewrite input_files_dir by done. by rewrite <- app_assoc.
  - rewrite input_files_file by done. done.
Qed.

(** Every run ends in one of the ways of [Outcome]. *)
Lemma main_outcome (args : Args) :
  Outcome env args (main env args []).1 (main env args []).2.
Proof.
  rewrite main_unfold. cbv zeta. fold (header args).
  destruct (load_model env (model_path args)) as [model|e] eqn:Hload;
    [|by constructor].
  rewrite input_files_of.
  destruct (files_of env args) as [files|e] eqn:Hfiles;
    [|by apply (ListingRaised env args model)].
  destruct (score_files_cases env model files [] (header args ++ listing env args))
    as [(scored & Hall & ->)|(before & file & after & scored & e &
                              -> & Hall & He & ->)].
  - rewrite app_nil_l.
    destruct scored as [|p scored].
    + apply Forall2_nil_inv_r in Hall as ->.
      rewrite save_results_none, loop_events_nil, app_nil_r, <- app_assoc.
      by apply (NothingToSave env args model).
    + assert (files <> []) as Hne
        by (intros ->; by apply Forall2_nil_inv_l in Hall).
      rewrite fmap_cons, save_results_some. fold (output_file args).
      set (final := {| columns := _; rows := _ |}).
      assert (concat ((p :: scored).*2) = Ok final) as Hcat by done.
      destruct (makedirs env (output_data args)) as [[]|e] eqn:Hmk.
      * destruct (to_csv env (output_file args) final) as [[]|e] eqn:Hcsv;
          rewrite <- !app_assoc.
        -- by apply (Saved env args model files (p :: scored) final).
        -- by apply (WriteRaised env args model files (p :: scored) final).
      * rewrite <- !app_assoc.
        by apply (MakedirsRaised env args model files (p :: scored)).
  - rewrite <- !app_assoc.
    by apply (FileRaised env args model before file after scored).
Qed.

(** What the parts of a log hold. *)
Lemma loop_events_proj (model : Model) (files : list string)
    (scored : list (DataFrame * DataFrame)) :
  Forall2 (fun f p => scores env model f p.1 p.2) files scored ->
  reads (loop_events files scored.*1) = files /\
  predicted (loop_events files scored.*1) = scored.*1 /\
  written (loop_events files scored.*1) = [] /\
  created_dirs (loop_events files scored.*1) = [] /\
  listed (loop_events files scored.*1) = [] /\
  loads (loop_events files scored.*1) = [].
Proof.
  induction 1 as [|f p files scored _ _ (Hr & Hp & Hw & Hc & Hl & Hm)];
    [done|].
  rewrite !fmap_cons, loop_events_cons. proj.
  by rewrite Hr, Hp, Hw, Hc, Hl, Hm.
Qed.

Lemma failed_events_proj (file : string) :
  reads (failed_events env file) = [file] /\
  written (failed_events env file) = [] /\
  created_dirs (failed_events env file) = [] /\
  listed (failed_events env file) = [] /\
  loads (failed_events env file) = [].
Proof. unfold failed_events. by destruct (read_csv env file). Qed.

Lemma listing_proj (args : Args) :
  reads (listing env args) = [] /\
  written (listing env args) = [] /\
  created_dirs (listing env args) = [] /\
  predicted (listing env args) = [] /\
  loads (listing env args) = [].
Proof. unfold listing. by destruct (isdir env (input_data args)). Qed.

End Outcomes.

Lemma header_proj (args : Args) :
  reads (header args) = [] /\ written (header args) = [] /\
  created_dirs (header args) = [] /\ predicted (header args) = [] /\
  listed (header args) = [] /\ loads (header args) = [model_path args].
Proof. done. Qed.

(** Brings the projections of an outcome's log to the parts they come from. *)
Ltac outcome_log env args :=
  autorewrite with log_proj;
  pose proof (header_proj args) as (? & ? & ? & ? & ? & ?);
  pose proof (listing_proj env args) as (? & ? & ? & ? & ?);
  repeat match goal with
  | H : Forall2 (fun f p => scores env ?m f p.1 p.2) ?fs ?sc |- _ =>
      pose proof (loop_events_proj env m fs sc H) as (? & ? & ? & ? & ? & ?);
      revert H
  end;
  intros;
  repeat match goal with
  | |- context [failed_events env ?f] =>
      pose proof (failed_events_proj env f) as (? & ? & ? & ? & ?);
      generalize dependent (failed_events env f); intros
  end;
  repeat match goal with
  | H : _ (header args) = _ |- _ => rewrite H; clear H
  | H : _ (listing env args) = _ |- _ => rewrite H; clear H
  | H : _ (loop_events _ _) = _ |- _ => rewrite H; clear H
  | H : reads ?l = _ |- context [reads ?l] => rewrite H
  | H : written ?l = _ |- context [written ?l] => rewrite H
  | H : created_dirs ?l = _ |- context [created_dirs ?l] => rewrite H
  | H : listed ?l = _ |- context [listed ?l] => rewrite H
  | H : loads ?l = _ |- context [loads ?l] => rewrite H
  end;
  simpl; rewrite ?app_nil_r.

(** X1.  Every run loads the model exactly once, from [model_path], right
    after printing its three arguments and before it looks at the input;
    when the loading raises, the run stops there with that exception. *)
Theorem model_loaded_once_first (env : Env) (args : Args) :
  let run := main env args [] in
  loads run.1 = [model_path args] /\
  exists rest,
    run.1 = [Print ("Input path: " +:+ input_data args);
             Print ("Output: " +:+ output_data args);
             Print ("Model path: " +:+ model_path args);
             LoadModel (model_path args)] ++ rest /\
    match load_model env (model_path args) with
    | Raise e => rest = [] /\ run.2 = Raise e
    | Ok _ => True
    end.
Proof.
  intros run. subst run.
  destruct (main_outcome env args)
    as [e Hload|model e Hload Hfiles|model before file after scored e Hload Hfiles Hall He
       |model Hload Hfiles|model files scored e Hload Hfiles Hne Hall Hmk
       |model files scored final e Hload Hfiles Hne Hall Hcat Hmk Hcsv
       |model files scored final Hload Hfiles Hne Hall Hcat Hmk Hcsv];
    rewrite Hload.
  1: { split; [done|]. exists []. by rewrite app_nil_r. }
  all: split; [by outcome_log env args | by eexists].
Qed.

(** X2.  From a directory the scorer reads nothing but listed names that
    end in ".csv", joined to the directory, in listing order: the files read
    are an initial part of these, whatever else the run does. *)
Theorem directory_reads_only_csv (env : Env) (args : Args)
    (names : list string) :
  isdir env (input_data args) = true ->
  listdir env (input_data args) = Ok names ->
  let run := main env args [] in
  reads run.1 `prefix_of` map (path_join (input_data args)) (csv_names names) /\
  Forall (fun p => exists f,
            f ∈ names /\ (exists stem, f = stem +:+ ".csv") /\
            p = path_join (input_data args) f) (reads run.1).
Proof.
  intros Hdir Hlist run.
  assert (files_of env args =
          Ok (map (path_join (input_data args)) (csv_names names))) as Hof
    by (unfold files_of; by rewrite Hdir, Hlist).
  assert (reads run.1 `prefix_of`
          map (path_join (input_data args)) (csv_names names)) as Hpre.
  { subst run.
    destruct (main_outcome env args)
      as [e Hload|model e Hload Hfiles|model before file after scored e Hload Hfiles Hall He
         |model Hload Hfiles|model files scored e Hload Hfiles Hne Hall Hmk
         |model files scored final e Hload Hfiles Hne Hall Hcat Hmk Hcsv
         |model files scored final Hload Hfiles Hne Hall Hcat Hmk Hcsv];
      try (rewrite Hof in Hfiles; injection Hfiles as Hfiles;
           rewrite Hfiles);
      outcome_log env args;
      first [ apply prefix_nil | reflexivity
            | exists after; by rewrite <- app_assoc ]. }
  split; [exact Hpre|].
  apply Forall_forall. intros p Hp.
  destruct Hpre as [more Hmore].
  assert (p ∈ map (path_join (input_data args)) (csv_names names)) as Hin
    by (rewrite Hmore; apply elem_of_app; by left).
  apply list_elem_of_fmap in Hin as (f & -> & Hf).
  unfold csv_names in Hf. apply list_elem_of_filter in Hf as [Hcsv Hf].
  apply PyStrFacts.endswith_spec in Hcsv. by exists f.
Qed.

Lemma directory_reads_only_csv_witness :
  let run := main ScoreExamples.two_csv ScoreExamples.args_dir [] in
  reads run.1 `prefix_of`
    map (path_join "in") (csv_names ["b.csv"; "notes.txt"; "a.csv"; "C.CSV"]) /\
  Forall (fun p => exists f,
            f ∈ ["b.csv"; "notes.txt"; "a.csv"; "C.CSV"] /\
            (exists stem, f = stem +:+ ".csv") /\
            p = path_join "in" f) (reads run.1).
Proof.
  apply (directory_reads_only_csv ScoreExamples.two_csv ScoreExamples.args_dir);
    reflexivity.
Defined.








(** A pass of the loop body does the same whatever was logged before. *)
Lemma score_file_log (env : Env) (model : Model) (file : string)
    (log : list Event) :
  score_file env model file log =
    (log ++ (score_file env model file []).1,
     (score_file env model file []).2).
Proof.
  unfold score_file, bind, print, call, lift.
  destruct (read_csv env file) as [df|e]; simpl;
    [destruct (predict model df) as [values|e]; simpl;
     [destruct (set_column df "prediction" values); simpl|]|];
    by rewrite <- !app_assoc.
Qed.

(** A run whose input files are scored up to one that fails. *)
Lemma main_stops_at (env : Env) (args : Args) (model : Model)
    (before : list string) (file : string) (after : list string)
    (scored : list (DataFrame * DataFrame)) (e : Exn) :
  load_model env (model_path args) = Ok model ->
  files_of env args = Ok (before ++ file :: after) ->
  Forall2 (fun f p => scores env model f p.1 p.2) before scored ->
  score_file env model file [] = (failed_events env file, Raise e) ->
  main env args [] =
    (header args ++ listing env args ++ loop_events before scored.*1 ++
     failed_events env file, Raise e).
Proof.
  intros Hload Hfiles Hall Hfail.
  rewrite main_unfold. cbv zeta. fold (header args).
  rewrite Hload, input_files_of, Hfiles.
  assert (forall results log,
            score_files env model (before ++ file :: after) results log =
              (log ++ loop_events before scored.*1 ++ failed_events env file,
               Raise e)) as Hloop; [|by rewrite Hloop, <- !app_assoc].
  clear Hfiles.
  induction Hall as [|f [df sc] before scored (values & Hread & Hpred & Hlen & Hsc) _ IH];
    intros results log; [|simpl in Hread, Hpred, Hlen, Hsc; subst sc].
  - rewrite app_nil_l, score_files_cons, loop_events_nil, app_nil_l.
    by rewrite score_file_log, Hfail.
  - rewrite <- app_comm_cons, score_files_cons.
    rewrite (score_file_ok env model f df values) by done.
    rewrite IH, !fmap_cons, loop_events_cons. cbn [fst].
    by rewrite <- !app_assoc.
Qed.

(** X5.  A file that cannot be read ends the run with the exception of
    the read: the files before it were read and scored, the files after it
    are not read, and no directory is made and no file written. *)
Theorem unreadable_file_aborts (env : Env) (args : Args) (model : Model)
    (before : list string) (file : string) (after : list string)
    (scored : list (DataFrame * DataFrame)) (e : Exn) :
  load_model env (model_path args) = Ok model ->
  files_of env args = Ok (before ++ file :: after) ->
  Forall2 (fun f p => scores env model f p.1 p.2) before scored ->
  read_csv env file = Raise e ->
  let run := main env args [] in
  run.2 = Raise e /\
  reads run.1 = before ++ [file] /\
  last run.1 = Some (ReadCsv file) /\
  created_dirs run.1 = [] /\
  written run.1 = [].
Proof.
  intros Hload Hfiles Hall Hread run. subst run.
  rewrite (main_stops_at env args model before file after scored e);
    try done.
  - cbn [fst snd]. split_and!; try (by outcome_log env args).
    unfold failed_events. rewrite Hread, !app_assoc.
    change [Print ("📄 Processing: " +:+ file); ReadCsv file]
      with ([Print ("📄 Processing: " +:+ file)] ++ [ReadCsv file]).
    by rewrite app_assoc, last_snoc.
  - unfold score_file, failed_events, bind, print, call. by rewrite Hread.
Qed.

Lemma unreadable_file_aborts_witness :
  let run := main ScoreFailures.unreadable ScoreExamples.args_dir [] in
  run.2 = Raise (External "ParserError") /\
  reads run.1 = ["in/b.csv"] ++ ["in/a.csv"] /\
  last run.1 = Some (ReadCsv "in/a.csv") /\
  created_dirs run.1 = [] /\
  written run.1 = [].
Proof.
  apply (unreadable_file_aborts ScoreFailures.unreadable ScoreExamples.args_dir
           ScoreExamples.ones ["in/b.csv"] "in/a.csv" []
           [(ScoreExamples.frame_b,
             with_column ScoreExamples.frame_b "prediction" [Num 1; Num 1])]).
  - reflexivity.
  - reflexivity.
  - repeat constructor. by exists [Num 1; Num 1].
  - reflexivity.
Defined.



(** No other line of the scorer is the warning. *)
Lemma processing_is_not_warning (file : string) :
  Print ("📄 Processing: " +:+ file) <> Print "⚠️ No results to save".
Proof. by intros [= H]. Qed.

Lemma loop_events_no_warning (files : list string) :
  forall frames,
    ~ In (Print "⚠️ No results to save") (loop_events files frames).
Proof.
  induction files as [|f files IH]; intros [|df frames]; try (by intros []).
  rewrite loop_events_cons. intros Hin. apply in_app_iff in Hin as [Hin|Hin].
  - by destruct Hin as [Hin|[Hin|[Hin|[]]]].
  - by apply IH in Hin.
Qed.

Lemma prefix_no_warning (env : Env) (args : Args) :
  ~ In (Print "⚠️ No results to save") (header args ++ listing env args).
Proof.
  unfold header, listing. intros Hin. apply in_app_iff in Hin as [Hin|Hin].
  - by destruct Hin as [Hin|[Hin|[Hin|[Hin|[]]]]].
  - destruct Hin as [Hin|Hin]; [discriminate Hin|].
    destruct (isdir env (input_data args)); [|done].
    by destruct Hin as [Hin|[]].
Qed.

(** X7.  The warning "No results to save" is printed only by a run that
    loaded the model and found no input file at all; such a run returns
    and has read, made and written nothing.  It is never printed after a
    failure or next to a written file. *)
Theorem warning_means_no_input (env : Env) (args : Args) :
  let run := main env args [] in
  In (Print "⚠️ No results to save") run.1 ->
  (exists model, load_model env (model_path args) = Ok model) /\
  files_of env args = Ok [] /\
  run.2 = Ok tt /\
  reads run.1 = [] /\ created_dirs run.1 = [] /\ written run.1 = [].
Proof.
  intros run. subst run.
  destruct (main_outcome env args)
    as [e Hload|model e Hload Hfiles|model before file after scored e Hload Hfiles Hall He
       |model Hload Hfiles|model files scored e Hload Hfiles Hne Hall Hmk
       |model files scored final e Hload Hfiles Hne Hall Hcat Hmk Hcsv
       |model files scored final Hload Hfiles Hne Hall Hcat Hmk Hcsv];
    intros Hin.
  - exfalso. apply (prefix_no_warning env args), in_app_iff. by left.
  - exfalso. by apply (prefix_no_warning env args).
  - exfalso. rewrite app_assoc in Hin. apply in_app_iff in Hin as [Hin|Hin];
      [by apply (prefix_no_warning env args)|].
    apply in_app_iff in Hin as [Hin|Hin];
      [by apply loop_events_no_warning in Hin|].
    unfold failed_events in Hin.
    destruct Hin as [Hin|[Hin|Hin]];
      [by apply processing_is_not_warning in Hin|discriminate Hin|].
    destruct (read_csv env file); [|done]. by destruct Hin as [Hin|[]].
  - split_and!; try done; [by eexists|by outcome_log env args..].
  - exfalso. rewrite app_assoc in Hin. apply in_app_iff in Hin as [Hin|Hin];
      [by apply (prefix_no_warning env args)|].
    apply in_app_iff in Hin as [Hin|Hin];
      [by apply loop_events_no_warning in Hin|].
    by destruct Hin as [Hin|[]].
  - exfalso. rewrite app_assoc in Hin. apply in_app_iff in Hin as [Hin|Hin];
      [by apply (prefix_no_warning env args)|].
    apply in_app_iff in Hin as [Hin|Hin];
      [by apply loop_events_no_warning in Hin|].
    by destruct Hin as [Hin|[Hin|[]]].
  - exfalso. rewrite app_assoc in Hin. apply in_app_iff in Hin as [Hin|Hin];
      [by apply (prefix_no_warning env args)|].
    apply in_app_iff in Hin as [Hin|Hin];
      [by apply loop_events_no_warning in Hin|].
    by destruct Hin as [Hin|[Hin|[Hin|[]]]].
Qed.

Lemma warning_means_no_input_witness :
  let run := main ScoreExamples.no_csv ScoreExamples.args_dir [] in
  (exists model, load_model ScoreExamples.no_csv "model" = Ok model) /\
  files_of ScoreExamples.no_csv ScoreExamples.args_dir = Ok [] /\
  run.2 = Ok tt /\
  reads run.1 = [] /\ created_dirs run.1 = [] /\ written run.1 = [].
Proof.
  apply (warning_means_no_input ScoreExamples.no_csv ScoreExamples.args_dir).
  vm_compute. repeat (first [left; reflexivity | right]).
Defined.

End ScoreExtras.

(** * The registrar: publication, and every way a run can end *)

Module RegisterExtras.
Import Register RegisterFacts RegisterRuns.
Import RegisterClaims.

Section Runs.

Context {P : Type}.
Variable files : Files.
Variable MLClient_new : Workspace -> MLClient P.

Implicit Types s : @State P.
Implicit Types ctx : @Context P.

Lemma bind_try_remote {A B} (mk : result A -> Event) (op : P -> P * result A)
    (h : Run A) (k : A -> Run B) s :
  bind (try_except (remote mk op) h) k s =
    match (op (platform s)).2 with
    | Ok a => k a {| platform := (op (platform s)).1;
                     log := log s ++ [mk (Ok a)] |}
    | Raise e => bind h k {| platform := (op (platform s)).1;
                             log := log s ++ [mk (Raise e)] |}
    end.
Proof.
  unfold bind, try_except, remote. by destruct (op (platform s)) as [p' [a|e]].
Qed.

(** Closes a leaf of [publish]: the log is the old one followed by the
    calls of one constructor of [Published]. *)
Ltac published :=
  simpl; rewrite <- ?app_assoc; eexists; split; [reflexivity|];
  first [ by apply EndpointRaised
        | eapply (ComponentRaised _ _ _ _ [_; _]); by constructor
        | eapply (ComponentRaised _ _ _ _ [_; _; _]); by constructor
        | eapply (DeploymentRaised _ _ _ _ [_; _]); by constructor
        | eapply (DeploymentRaised _ _ _ _ [_; _; _]); by constructor
        | eapply (LookupRaised _ _ _ _ [_; _]); by constructor
        | eapply (LookupRaised _ _ _ _ [_; _; _]); by constructor
        | eapply (DefaultRaised _ _ _ _ [_; _]); by constructor
        | eapply (DefaultRaised _ _ _ _ [_; _; _]); by constructor
        | eapply (DefaultSet _ _ _ _ [_; _]); by constructor
        | eapply (DefaultSet _ _ _ _ [_; _; _]); by constructor ].

(** Every run of [publish] is one of [Published]. *)
Lemma publish_trace ctx (model : Model) s :
  exists d2,
    log (publish ctx model s).1 = log s ++ d2 /\
    Published (experiment ctx) (cluster_name ctx) (score_component ctx) model
              d2 (publish ctx model s).2.
Proof.
  unfold publish. cbv zeta. rewrite bind_try_remote.
  destruct (batch_endpoints_get (ml_client ctx) _ (platform s)).2
    as [found|e].
  - rewrite bind_print, bind_remote. simpl platform.
    destruct (components_create_or_update (ml_client ctx) _ _).2 as [pc|e1];
      [|published].
    rewrite bind_remote. simpl platform.
    destruct (batch_deployments_begin_create_or_update_result _ _ _).2
      as [made|e2]; [|published].
    rewrite bind_remote. simpl platform.
    destruct (batch_endpoints_get (ml_client ctx) _ _).2 as [endpoint|e3];
      [|published].
    rewrite bind_remote. simpl platform.
    destruct (batch_endpoints_begin_create_or_update_result _ _ _).2
      as [updated|e4]; [|published].
    unfold print, local. published.
  - rewrite bind_assoc, bind_remote. simpl platform.
    destruct (batch_endpoints_begin_create_or_update_result _ _ _).2
      as [fresh|e0]; [|published].
    rewrite bind_ret, bind_print, bind_remote. simpl platform.
    destruct (components_create_or_update (ml_client ctx) _ _).2 as [pc|e1];
      [|published].
    rewrite bind_remote. simpl platform.
    destruct (batch_deployments_begin_create_or_update_result _ _ _).2
      as [made|e2]; [|published].
    rewrite bind_remote. simpl platform.
    destruct (batch_endpoints_get (ml_client ctx) _ _).2 as [endpoint|e3];
      [|published].
    rewrite bind_remote. simpl platform.
    destruct (batch_endpoints_begin_create_or_update_result _ _ _).2
      as [updated|e4]; [|published].
    unfold print, local. published.
Qed.

(** After [setup], every run of [main] is one of [Continued]. *)
Lemma main_continued s ctx s1 :
  setup files MLClient_new s = (s1, Ok ctx) ->
  exists tail,
    log (main files MLClient_new s).1 = log s1 ++ tail /\
    Continued (experiment ctx) (cluster_name ctx) (train_component ctx)
              (score_component ctx) (data ctx) tail
              (main files MLClient_new s).2.
Proof.
  intros Hsetup. rewrite registrar_main_unfold, Hsetup.
  rewrite train_cases. cbv zeta.
  fold (training_job (experiment ctx) (cluster_name ctx) (train_component ctx)
          (data ctx)).
  destruct (jobs_create_or_update _ _ _).2 as [job|e].
  2: { simpl. eexists. split; [reflexivity|]. apply AtSubmission. }
  destruct (jobs_stream _ _ _).2 as [out|e].
  2: { simpl. eexists. split; [reflexivity|]. apply AtStream. }
  case_bool_decide as Hstatus.
  { simpl. rewrite <- app_assoc. eexists. split; [reflexivity|].
    by apply (AtStatus _ _ _ _ _ job out). }
  try apply dec_stable in Hstatus.
  rewrite register_model_cases. cbv zeta. simpl platform. simpl log.
  destruct (jobs_list _ _ _).2 as [child_jobs|e].
  2: { simpl. rewrite <- app_assoc. eexists. split; [reflexivity|].
       by apply (AtListing _ _ _ _ _ job out). }
  destruct (select_train_job child_jobs) as [train_job|e] eqn:Hsel.
  2: { simpl. rewrite <- app_assoc. eexists. split; [reflexivity|].
       by apply (AtSelection _ _ _ _ _ job out child_jobs). }
  fold (model_of (experiment ctx) train_job).
  destruct (models_create_or_update _ _ _).2 as [model|e].
  - match goal with |- context [publish ctx model ?s3] =>
      destruct (publish_trace ctx model s3) as (d2 & Hlog2 & Hd2);
      revert Hlog2 Hd2; generalize (publish ctx model s3) end.
    intros run Hlog2 Hd2.
    rewrite Hlog2. simpl log. rewrite <- !app_assoc.
    eexists. split; [reflexivity|].
    apply (AtPublication _ _ _ _ _ job out child_jobs train_job model d2);
      [exact Hstatus|exact Hsel|exact Hd2].
  - simpl. rewrite <- !app_assoc. eexists. split; [reflexivity|].
    by apply (AtModel _ _ _ _ _ job out child_jobs train_job).
Qed.

(** ** What [setup] leaves to the rest of [main] *)

Lemma bind_inv_ok {A B} (m : Run A) (k : A -> Run B) s s' (b : B) :
  bind m k s = (s', Ok b) ->
  exists s1 a, m s = (s1, Ok a) /\ k a s1 = (s', Ok b).
Proof.
  unfold bind. destruct (m s) as [s1 [a|e]]; [|done]. by exists s1, a.
Qed.

Lemma getitem_ok (config : Config) (k v : string) s s' :
  lift (S:=@State P) (getitem config k) s = (s', Ok v) ->
  config !! k = Some v /\ s' = s.
Proof.
  unfold lift, getitem. destruct (config !! k); [|done]. by intros [= -> ->].
Qed.

Lemma register_component_ok (ml : MLClient P) yaml s s' registered :
  register_component files ml yaml s = (s', Ok registered) ->
  exists d,
    log s' = log s ++ d /\ Forall (fun ev => in_setup ev = true) d /\
    registered_from files yaml registered d.
Proof.
  rewrite register_component_cases. cbv zeta. unfold registered_from.
  destruct (load_component files yaml) as [c|e]; [|done].
  destruct (components_get ml _ _ _).2 as [c'|e].
  - intros [= <- <-]. eexists. split_and!; [done|by repeat constructor|].
    exists c. split; [done|]. left. simpl. tauto.
  - destruct (components_create_or_update ml _ _).2 as [c'|e']; [|done].
    intros [= <- <-]. eexists. split_and!; [done|by repeat constructor|].
    exists c. split; [done|]. right. simpl. tauto.
Qed.

(** A [setup] that returns read the configuration, took the experiment
    and the cluster from it, registered the two components and looked the
    training data up as its last call to the platform. *)
Lemma setup_context s s1 ctx :
  setup files MLClient_new s = (s1, Ok ctx) ->
  exists config datasource_name d0,
    json_load files "config.json" = Ok config /\
    config !! "cluster" = Some (cluster_name ctx) /\
    config !! "experiment" = Some (experiment ctx) /\
    config !! "datasource_name" = Some datasource_name /\
    log s1 = log s ++ d0 /\
    Forall (fun ev => in_setup ev = true) d0 /\
    In (DataGet datasource_name "latest" (Ok (data ctx))) d0 /\
    registered_from files "train.yaml" (train_component ctx) d0 /\
    registered_from files "score.yaml" (score_component ctx) d0.
Proof.
  unfold setup, load_config, get_ml_client. intros H.
  rewrite bind_local in H.
  destruct (json_load files "config.json") as [config|e]; [|done].
  rewrite !bind_assoc in H.
  apply bind_inv_ok in H as (sa & sub & H1 & H). apply getitem_ok in H1 as [_ ->].
  rewrite !bind_assoc in H.
  apply bind_inv_ok in H as (sa & rg & H1 & H). apply getitem_ok in H1 as [_ ->].
  rewrite !bind_assoc in H.
  apply bind_inv_ok in H as (sa & ws & H1 & H). apply getitem_ok in H1 as [_ ->].
  rewrite bind_ret in H.
  apply bind_inv_ok in H as (sa & cluster & H1 & H).
  apply getitem_ok in H1 as [Hcluster ->].
  apply bind_inv_ok in H as (sa & exp & H1 & H).
  apply getitem_ok in H1 as [Hexp ->].
  apply bind_inv_ok in H as (sa & env & Henv & H).
  apply bind_inv_ok in H as (sb & tc & Htc & H).
  apply bind_inv_ok in H as (sc & sco & Hsc & H).
  apply bind_inv_ok in H as (sd & ds & H1 & H).
  apply getitem_ok in H1 as [Hds ->].
  rewrite bind_remote in H.
  destruct (data_get _ ds "latest" (platform sc)).2 as [d|e]; [|done].
  rewrite bind_print in H. unfold ret in H. injection H as <- <-.
  match type of Henv with register_environment ?ml ?n ?d ?s0 = _ =>
    destruct (emits_register_environment ml n d s0) as (d1 & Hlog1 & Hd1) end.
  rewrite Henv in Hlog1. simpl in Hlog1.
  apply register_component_ok in Htc as (d2 & Hlog2 & Hd2 & Hreg2).
  apply register_component_ok in Hsc as (d3 & Hlog3 & Hd3 & Hreg3).
  exists config, ds,
    ([JsonLoad "config.json" (Ok config)] ++ d1 ++ d2 ++ d3 ++
     [DataGet ds "latest" (Ok d); Print ("✅ Data: " +:+ data_name d)]).
  simpl. rewrite Hlog3, Hlog2, Hlog1. simpl.
  split_and!; try done.
  - by rewrite <- !app_assoc.
  - constructor; [done|]. rewrite !Forall_app. split_and!; try done.
    by repeat constructor.
  - right. rewrite !in_app_iff. simpl. tauto.
  - destruct Hreg2 as (c0 & Hload & Hin). exists c0. split; [done|].
    simpl. rewrite !in_app_iff. tauto.
  - destruct Hreg3 as (c0 & Hload & Hin). exists c0. split; [done|].
    simpl. rewrite !in_app_iff. tauto.
Qed.

(** ** Calls that raise *)

Lemma fail_fast_ret {A} (a : A) : fail_fast (P:=P) (ret a).
Proof. intros s. exists []. by rewrite app_nil_r. Qed.

Lemma fail_fast_lift {A} (r : result A) : fail_fast (P:=P) (lift r).
Proof. intros s. exists []. by rewrite app_nil_r. Qed.

Lemma fail_fast_remote {A} (mk : result A -> Event) (op : P -> P * result A) :
  (forall r, failure (mk r) = raised r) -> fail_fast (remote mk op).
Proof.
  intros Hmk s. unfold remote. destruct (op (platform s)) as [p' r].
  exists [mk r]. split; [done|]. intros ev e [<-|[]] Hfail _.
  rewrite Hmk in Hfail. destruct r as [a|e']; [done|].
  by injection Hfail as ->.
Qed.

Lemma fail_fast_local {A} (mk : result A -> Event) (r : result A) :
  failure (mk r) = raised r -> fail_fast (P:=P) (local mk r).
Proof.
  intros Hmk s. exists [mk r]. split; [done|]. intros ev e [<-|[]] Hfail _.
  rewrite Hmk in Hfail. destruct r as [a|e']; [done|].
  by injection Hfail as ->.
Qed.

Lemma fail_fast_print (line : string) : fail_fast (P:=P) (print line).
Proof. exact (fail_fast_local (fun _ => Print line) (Ok tt) eq_refl). Qed.

Lemma last_app_In {A} (l1 l2 : list A) (x : A) :
  In x l2 -> last (l1 ++ l2) = last l2.
Proof.
  destruct l2 as [|y l2] using rev_ind; [done|]. intros _.
  by rewrite app_assoc, !last_snoc.
Qed.

Lemma fail_fast_bind {A B} (m : Run A) (k : A -> Run B) :
  fail_fast (P:=P) m -> (forall a, fail_fast (k a)) -> fail_fast (bind m k).
Proof.
  intros Hm Hk s. unfold bind.
  destruct (Hm s) as (d1 & Hlog1 & H1).
  destruct (m s) as [s1 [a|e1]]; simpl in Hlog1, H1.
  - destruct (Hk a s1) as (d2 & Hlog2 & H2).
    exists (d1 ++ d2). rewrite Hlog2, Hlog1, app_assoc. split; [done|].
    intros ev e Hin Hfail Hlookup. apply in_app_iff in Hin as [Hin|Hin].
    + by destruct (H1 ev e Hin Hfail Hlookup).
    + destruct (H2 ev e Hin Hfail Hlookup) as [-> Hlast].
      split; [done|]. by rewrite (last_app_In _ _ ev).
  - exists d1. split; [done|]. intros ev e Hin Hfail Hlookup.
    destruct (H1 ev e Hin Hfail Hlookup) as [[= ->] Hlast]. done.
Qed.

(** A lookup inside a [try]: what it raises is dropped, and the handler
    decides. *)
Lemma fail_fast_try_lookup {A} (mk : result A -> Event)
    (op : P -> P * result A) (h : Run A) :
  (forall r, is_lookup (mk r) = true) ->
  fail_fast h -> fail_fast (try_except (remote mk op) h).
Proof.
  intros Hmk Hh s. unfold try_except, remote.
  destruct (op (platform s)) as [p' [a|e1]].
  - exists [mk (Ok a)]. split; [done|]. intros ev e [<-|[]] _ Hlookup.
    by rewrite Hmk in Hlookup.
  - match goal with |- context [h ?s1] =>
      destruct (Hh s1) as (d2 & Hlog2 & H2) end.
    exists (mk (Raise e1) :: d2). simpl in Hlog2.
    rewrite Hlog2, <- app_assoc. split; [done|].
    intros ev e [<-|Hin] Hfail Hlookup; [by rewrite Hmk in Hlookup|].
    destruct (H2 ev e Hin Hfail Hlookup) as [-> Hlast].
    split; [done|]. rewrite <- Hlast.
    exact (last_app_In [mk (Raise e1)] d2 ev Hin).
Qed.

Ltac fail_fast_step :=
  first
    [ apply fail_fast_bind
    | apply fail_fast_try_lookup
    | apply fail_fast_remote
    | apply fail_fast_local
    | apply fail_fast_print
    | apply fail_fast_ret
    | apply fail_fast_lift ].

Lemma main_is_fail_fast : fail_fast (main files MLClient_new).
Proof.
  unfold main, setup, load_config, get_ml_client, register_environment,
    register_component, train, register_model, publish.
  repeat first [ progress intros | progress cbv zeta | case_bool_decide
               | fail_fast_step | reflexivity ].
Qed.

Lemma call_fails (p0 : P) (ev : Event) (e : Exn) :
  In ev (log (main files MLClient_new (init p0)).1) ->
  failure ev = Some e ->
  is_lookup ev = false ->
  (main files MLClient_new (init p0)).2 = Raise e /\
  last (log (main files MLClient_new (init p0)).1) = Some ev.
Proof.
  intros Hin Hfail Hlookup.
  destruct (main_is_fail_fast (init p0)) as (d & Hlog & Hd).
  simpl in Hlog. rewrite Hlog in *. by apply Hd.
Qed.

(** ** The shape of every run *)

(** The log of a run is what [setup] logged, then one of [Continued] for
    the context [setup] returned. *)
Lemma main_shape (p0 : P) :
  let run := main files MLClient_new (init p0) in
  exists d0 tail,
    log run.1 = d0 ++ tail /\
    Forall (fun ev => in_setup ev = true) d0 /\
    ((exists e, tail = [] /\ run.2 = Raise e) \/
     (exists ctx config datasource_name,
        json_load files "config.json" = Ok config /\
        config !! "cluster" = Some (cluster_name ctx) /\
        config !! "experiment" = Some (experiment ctx) /\
        config !! "datasource_name" = Some datasource_name /\
        In (DataGet datasource_name "latest" (Ok (data ctx))) d0 /\
        registered_from files "train.yaml" (train_component ctx) d0 /\
        registered_from files "score.yaml" (score_component ctx) d0 /\
        Continued (experiment ctx) (cluster_name ctx) (train_component ctx)
                  (score_component ctx) (data ctx) tail run.2)).
Proof.
  intros run. subst run.
  destruct (setup files MLClient_new (init p0)) as [s1 [ctx|e]] eqn:Hsetup.
  - destruct (setup_context _ _ _ Hsetup)
      as (config & ds & d0 & Hjson & Hc & He & Hds & Hlog & Hd0 & Hdata
          & Htrain & Hscore).
    destruct (main_continued _ _ _ Hsetup) as (tail & Hmain & Hcont).
    exists d0, tail. rewrite Hmain, Hlog. split_and!; [done..|].
    right. by exists ctx, config, ds.
  - destruct (emits_setup files MLClient_new (init p0)) as (d0 & Hlog & Hd0).
    rewrite registrar_main_unfold, Hsetup. rewrite Hsetup in Hlog.
    exists d0, []. rewrite app_nil_r. split_and!; [done..|].
    left. by exists e.
Qed.

(** ** Properties of every run *)

Lemma split_at_component (d0 w m3 ready : list Event) cc rest :
  d0 ++ w ++ m3 ++ ready ++ cc :: rest =
  (d0 ++ w ++ m3 ++ ready ++ [cc]) ++ rest.
Proof. by rewrite <- !app_assoc. Qed.

Lemma split_at_model (d0 w : list Event) jl m (model : Model) pr rest :
  d0 ++ w ++ [jl; ModelsCreate m (Ok model); pr] ++ rest =
  (d0 ++ w ++ [jl]) ++ ModelsCreate m (Ok model) :: pr :: rest.
Proof. by rewrite <- !app_assoc. Qed.

(** Takes a run apart, down to the calls of [publish]. *)
Ltac run_cases Hcont :=
  inversion Hcont; subst; clear Hcont;
  try match goal with
      | Hpub : Published _ _ _ _ _ _ |- _ =>
          inversion Hpub; subst; clear Hpub;
          try match goal with
              | Hready : EndpointReady _ _ |- _ =>
                  inversion Hready; subst; clear Hready
              end
      end;
  unfold waited in *.

(** Finds a call in a log made of known calls. *)
Ltac find_in := simpl; repeat (first [left; reflexivity | right]).

(** The places where a call can be in a log made of known calls. *)
Ltac in_cases H :=
  rewrite ?in_app_iff in H; simpl in H; destruct_or?;
  try done; try discriminate.

(** X8.  The lookups of an environment, a component or an endpoint are
    the only calls whose exception the script may drop.  Any other call
    that raises, a file that cannot be loaded, a create, the data lookup,
    the submission, the stream, the listing, is the last call of the run,
    and the run raises what that call raised. *)
Theorem call_that_raises_ends_run (p0 : P) (ev : Event) (e : Exn) :
  let run := main files MLClient_new (init p0) in
  In ev (log run.1) ->
  failure ev = Some e ->
  is_lookup ev = false ->
  run.2 = Raise e /\ last (log run.1) = Some ev.
Proof.
  intros run Hin Hfail Hlookup. subst run.
  destruct (main_is_fail_fast (init p0)) as (d & Hlog & Hd).
  simpl in Hlog. rewrite Hlog in *. by apply Hd.
Qed.

(** X9.  A run that returns normally dropped no exception but those of
    lookups, and ended in one of two ways: the submitted job came back
    with a status other than "Completed", the run printed "Training
    failed" last and published nothing; or the model was registered, the
    deployment was created, and the last call to the platform made that
    deployment the default of the endpoint. *)
Theorem main_returns_normally (p0 : P) :
  let run := main files MLClient_new (init p0) in
  run.2 = Ok tt ->
  Forall (fun ev => failure ev = None \/ is_lookup ev = true) (log run.1) /\
  ((exists before pipeline_job job out,
      log run.1 = before ++ waited pipeline_job job out ++
                  [Print ("Training failed: " +:+ status job)] /\
      status job <> "Completed" /\
      Forall (fun ev => is_publication ev = false) (log run.1)) \/
   (exists before m model d made fetched updated,
      In (ModelsCreate m (Ok model)) before /\
      In (DeploymentsCreate d (Ok made)) before /\
      log run.1 = before ++
        [EndpointsCreate {| endpoint_name := endpoint_name fetched;
                            defaults_deployment_name :=
                              Some (deployment_name d) |} (Ok updated);
         Print ("Deployment: " +:+ deployment_name d)])).
Proof.
  intros run Hok. split.
  - apply Forall_forall. intros ev Hin%list_elem_of_In.
    destruct (failure ev) as [e|] eqn:Hfail; [|by left].
    destruct (is_lookup ev) eqn:Hlookup; [by right|].
    destruct (call_fails p0 ev e Hin Hfail Hlookup) as [Hraise _].
    fold run in Hraise. congruence.
  - destruct (main_shape p0) as (d0 & tail & Hlog & Hd0 & Hrun).
    fold run in Hlog, Hrun. rewrite Hlog. clear Hlog.
    destruct Hrun as [(e & _ & Hraise)|(ctx & config & ds & _ & _ & _ & _ & _
                                         & _ & _ & Hcont)]; [congruence|].
    revert Hcont. rewrite Hok. clear Hok. intros Hcont.
    inversion Hcont as [| |job out Hstatus| | |
                       |job out child_jobs train_job model d2 r Hstatus Hsel
                          Hpub]; subst.
    + left. exists d0. eexists _, job, out. split_and!; [done..|].
      footprint.
    + right. inversion Hpub as [| | | | |ready pc made endpoint updated Hready];
        subst.
      exists (d0 ++ waited (training_job (experiment ctx) (cluster_name ctx)
                              (train_component ctx) (data ctx)) job out ++
              [JobsList (job_name job) (Ok child_jobs);
               ModelsCreate (model_of (experiment ctx) train_job) (Ok model);
               Print ("✅ Model: " +:+ model_name model +:+ ":" +:+
                      show (model_version model))] ++
              ready ++
              [ComponentsCreate
                 (scoring_component (experiment ctx) (cluster_name ctx)
                    (score_component ctx) model) (Ok pc);
               DeploymentsCreate
                 (deployment_of (experiment ctx) (cluster_name ctx) pc)
                 (Ok made);
               EndpointsGet (the_endpoint (experiment ctx)) (Ok endpoint)]),
        (model_of (experiment ctx) train_job), model,
        (deployment_of (experiment ctx) (cluster_name ctx) pc), made,
        endpoint, updated.
      split_and!.
      * rewrite !in_app_iff. simpl. tauto.
      * rewrite !in_app_iff. simpl. tauto.
      * by rewrite <- !app_assoc.
Qed.

(** X10.  What a deployment serves.  A deployment is requested only
    after the platform returned the registered model, and no endpoint was
    looked up or created before that.  Its component is the one the
    platform returned for the scoring pipeline, whose step is the
    component registered from [score.yaml] and whose [model_path] input is
    the id the platform gave the registered model. *)
Theorem deployment_serves_registered_model (p0 : P)
    (d : PipelineComponentBatchDeployment)
    (r : result PipelineComponentBatchDeployment) :
  let run := main files MLClient_new (init p0) in
  In (DeploymentsCreate d r) (log run.1) ->
  exists before after m model name compute step,
    log run.1 = before ++ ModelsCreate m (Ok model) :: after /\
    Forall (fun ev => is_endpoint_call ev = false) before /\
    registered_from files "score.yaml" step before /\
    In (ComponentsCreate
          (Pipeline name compute step
             [("input_data", PipelineParameter "input_data");
              ("model_path", Literal (model_id model))] "output_data")
          (Ok (deployment_component d))) after /\
    In (DeploymentsCreate d r) after.
Proof.
  intros run Hin.
  destruct (main_shape p0) as (d0 & tail & Hlog & Hd0 & Hrun).
  fold run in Hlog, Hrun. rewrite Hlog in *. clear Hlog.
  apply in_app_iff in Hin as [Hin|Hin];
    [by apply (Forall_In _ _ _ Hd0) in Hin|].
  destruct Hrun as [(e & -> & _)|(ctx & config & ds & _ & _ & _ & _ & _
                                  & _ & Hscore & Hcont)]; [done|].
  run_cases Hcont; in_cases Hin.
  all: injection Hin as <- <-.
  all: eexists _, _, _, _, _, _, (score_component ctx).
  all: split; [apply split_at_model|].
  all: split_and!; [footprint|..|find_in|find_in].
  all: destruct Hscore as (c & Hload & Hc); exists c; split; [done|].
  all: rewrite !in_app_iff; tauto.
Qed.

(** X11.  The default deployment of an endpoint is set once the
    deployment exists.  An endpoint is sent to the platform with a default
    deployment only right after that deployment was created and the
    endpoint was fetched again under the name the deployment was given;
    what is sent is the fetched endpoint with the new deployment as its
    default, and no call to the platform follows. *)
Theorem default_set_after_deployment (p0 : P) (endpoint : BatchEndpoint)
    (r : result BatchEndpoint) (default : string) :
  let run := main files MLClient_new (init p0) in
  In (EndpointsCreate endpoint r) (log run.1) ->
  defaults_deployment_name endpoint = Some default ->
  exists before after d made fetched,
    log run.1 =
      before ++
      DeploymentsCreate d (Ok made) ::
      EndpointsGet (deployment_endpoint_name d) (Ok fetched) ::
      EndpointsCreate endpoint r :: after /\
    deployment_name d = default /\
    endpoint_name endpoint = endpoint_name fetched /\
    Forall (fun ev => is_remote ev = false) after.
Proof.
  intros run Hin Hdefault.
  destruct (main_shape p0) as (d0 & tail & Hlog & Hd0 & Hrun).
  fold run in Hlog, Hrun. rewrite Hlog in *. clear Hlog.
  apply in_app_iff in Hin as [Hin|Hin];
    [by apply (Forall_In _ _ _ Hd0) in Hin|].
  destruct Hrun as [(e & -> & _)|(ctx & config & ds & _ & _ & _ & _ & _
                                  & _ & _ & Hcont)]; [done|].
  run_cases Hcont; in_cases Hin.
  all: injection Hin as <- <-; try discriminate Hdefault.
  all: injection Hdefault as <-.
  all: match goal with
       | |- context [DeploymentsCreate ?d (Ok ?made) ::
                     EndpointsGet _ (Ok ?fetched) :: _] =>
           eexists _, _, d, made, fetched
       end.
  all: split; [rewrite split_at_component; reflexivity|].
  all: by repeat constructor.
Qed.

(** X12.  The job that is submitted is built from the configuration.
    A run submits at most one job.  Its pipeline is named after the
    "experiment" of the configuration and runs on its "cluster"; its step
    is the component registered from [train.yaml]; its input is, as a
    file, the id of the data asset that was looked up, label "latest",
    under the "datasource_name" of the configuration. *)
Theorem submitted_job_from_config (p0 : P) (pipeline_job : PipelineJob)
    (r : result Job) :
  let run := main files MLClient_new (init p0) in
  In (JobsCreate pipeline_job r) (log run.1) ->
  exists config experiment cluster_name datasource_name data train_component,
    json_load files "config.json" = Ok config /\
    config !! "experiment" = Some experiment /\
    config !! "cluster" = Some cluster_name /\
    config !! "datasource_name" = Some datasource_name /\
    component pipeline_job =
      Pipeline (experiment +:+ "_training") cluster_name train_component
        [("input_data",
          BoundInput {| input_type := URI_FILE; input_path := data_id data |})]
        "output_model" /\
    exists before after,
      log run.1 = before ++ JobsCreate pipeline_job r :: after /\
      In (DataGet datasource_name "latest" (Ok data)) before /\
      registered_from files "train.yaml" train_component before /\
      Forall (fun ev => is_submission ev = false) before /\
      Forall (fun ev => is_submission ev = false) after.
Proof.
  intros run Hin.
  destruct (main_shape p0) as (d0 & tail & Hlog & Hd0 & Hrun).
  fold run in Hlog, Hrun. rewrite Hlog in *. clear Hlog.
  apply in_app_iff in Hin as [Hin|Hin];
    [by apply (Forall_In _ _ _ Hd0) in Hin|].
  destruct Hrun as [(e & -> & _)|(ctx & config & ds & Hjson & Hc & He & Hds
                                  & Hdata & Htrain & _ & Hcont)]; [done|].
  exists config, (experiment ctx), (cluster_name ctx), ds, (data ctx),
    (train_component ctx).
  run_cases Hcont; in_cases Hin.
  all: injection Hin as <- <-.
  all: split_and!; [done..|].
  all: eexists d0, _; split_and!; [simpl; reflexivity|done..|footprint
                                  |by repeat constructor].
Qed.

(** X13.  Every name after the training comes from the "experiment" of
    the configuration: the model is registered as "<experiment>-model",
    as an MLflow model; the endpoint looked up or created is
    "<experiment>-endpoint"; the deployment is "<experiment>-deployment"
    on that endpoint, computes on the "cluster" of the configuration and
    does not continue when a step fails; the default set on an endpoint is
    "<experiment>-deployment". *)
Theorem names_from_config (p0 : P) (config : Config)
    (experiment cluster_name : string) :
  json_load files "config.json" = Ok config ->
  config !! "experiment" = Some experiment ->
  config !! "cluster" = Some cluster_name ->
  Forall (names_follow experiment cluster_name)
         (log (main files MLClient_new (init p0)).1).
Proof.
  intros Hjson Hexp Hcluster.
  destruct (main_shape p0) as (d0 & tail & Hlog & Hd0 & Hrun).
  rewrite Hlog. clear Hlog. apply Forall_app. split.
  { refine (Forall_weaken _ _ _ _ Hd0). by intros []. }
  destruct Hrun as [(e & -> & _)|(ctx & config' & ds & Hjson' & Hc & He & _
                                  & _ & _ & _ & Hcont)]; [done|].
  assert (config' = config) as -> by congruence.
  assert (Register.experiment ctx = experiment) as Hexp' by congruence.
  assert (Register.cluster_name ctx = cluster_name) as Hcluster'
    by congruence.
  rewrite Hexp', Hcluster' in Hcont. clear Hexp' Hcluster' Hc He.
  run_cases Hcont; by repeat constructor.
Qed.

(** ** Registering twice *)

(** X14.  On a platform that finds what was created on it, and keeps
    finding what it found, an environment is created at most once: after
    a registration that returned, a second registration under the same
    name makes the lookup only, returns what the lookup found and leaves
    the platform as it was. *)
Theorem environment_registered_once (ml : MLClient P)
    (name dockerfile dockerfile' : string) s s1 (env : Environment) :
  (forall new p p' made,
     environments_create_or_update ml new p = (p', Ok made) ->
     exists found,
       environments_get ml (env_name new) "latest" p' = (p', Ok found)) ->
  (forall p p' found,
     environments_get ml name "latest" p = (p', Ok found) ->
     exists found',
       environments_get ml name "latest" p' = (p', Ok found')) ->
  register_environment ml name dockerfile s = (s1, Ok env) ->
  exists found,
    register_environment ml name dockerfile' s1 =
      ({| platform := platform s1;
          log := log s1 ++
            [EnvironmentsGet name "latest" (Ok found);
             Print ("✅ Environment: " +:+ env_name found +:+ ":" +:+
                    show (env_version found))] |}, Ok found).
Proof.
  intros Hmade Hfound. rewrite register_environment_cases. cbv zeta.
  destruct (environments_get ml name "latest" (platform s))
    as [p1 [found|e]] eqn:Hget; simpl.
  - intros [= <- <-]. destruct (Hfound _ _ _ Hget) as [found' Hget'].
    exists found'. rewrite register_environment_cases. cbv zeta.
    simpl platform. by rewrite Hget'.
  - destruct (environments_create_or_update ml _ p1)
      as [p2 [made|e']] eqn:Hcreate; simpl; [|done].
    intros [= <- <-]. destruct (Hmade _ _ _ _ Hcreate) as [found' Hget'].
    simpl in Hget'.
    exists found'. rewrite register_environment_cases. cbv zeta.
    simpl platform. by rewrite Hget'.
Qed.

(** X15.  The same for a component, which is looked up under the name
    and version of the YAML file: after a registration that returned, a
    second registration from the same file loads the file, makes the
    lookup only, and returns what the lookup found. *)
Theorem component_registered_once (ml : MLClient P) (yaml : string) s s1
    (registered : Component) :
  (forall new p p' made,
     components_create_or_update ml new p = (p', Ok made) ->
     exists found,
       components_get ml (comp_name new) (comp_version new) p' =
         (p', Ok found)) ->
  (forall name version p p' found,
     components_get ml name version p = (p', Ok found) ->
     exists found',
       components_get ml name version p' = (p', Ok found')) ->
  register_component files ml yaml s = (s1, Ok registered) ->
  exists c found,
    load_component files yaml = Ok c /\
    register_component files ml yaml s1 =
      ({| platform := platform s1;
          log := log s1 ++
            [LoadComponent yaml (Ok c);
             ComponentsGet (comp_name c) (comp_version c) (Ok found);
             Print ("✅ Component: " +:+ comp_name found +:+ ":" +:+
                    comp_version found)] |}, Ok found).
Proof.
  intros Hmade Hfound. rewrite register_component_cases. cbv zeta.
  destruct (load_component files yaml) as [c|e] eqn:Hload; [|done].
  destruct (components_get ml (comp_name c) (comp_version c) (platform s))
    as [p1 [found|e]] eqn:Hget; simpl.
  - intros [= <- <-]. destruct (Hfound _ _ _ _ _ Hget) as [found' Hget'].
    exists c, found'. split; [done|].
    rewrite register_component_cases, Hload. cbv zeta.
    simpl platform. by rewrite Hget'.
  - destruct (components_create_or_update ml c p1)
      as [p2 [made|e']] eqn:Hcreate; simpl; [|done].
    intros [= <- <-]. destruct (Hmade _ _ _ _ Hcreate) as [found' Hget'].
    exists c, found'. split; [done|].
    rewrite register_component_cases, Hload. cbv zeta.
    simpl platform. by rewrite Hget'.
Qed.

End Runs.

(** ** The properties on the example platform *)

Import RegisterExamples RegisterWorlds.

Lemma call_that_raises_ends_run_witness :
  let run := main broken_score_yaml (client "Completed" []) (init []) in
  run.2 = Raise (External "ValidationException") /\
  last (log run.1) =
    Some (LoadComponent "score.yaml" (Raise (External "ValidationException"))).
Proof.
  apply (call_that_raises_ends_run broken_score_yaml (client "Completed" []) []
           (LoadComponent "score.yaml" (Raise (External "ValidationException")))).
  - vm_compute. repeat (first [left; reflexivity | right]).
  - reflexivity.
  - reflexivity.
Defined.

Lemma main_returns_normally_witness :
  let run := main (directory full_config)
                  (client "Completed" children_with_match) (init []) in
  Forall (fun ev => failure ev = None \/ is_lookup ev = true) (log run.1) /\
  ((exists before pipeline_job job out,
      log run.1 = before ++ waited pipeline_job job out ++
                  [Print ("Training failed: " +:+ status job)] /\
      status job <> "Completed" /\
      Forall (fun ev => is_publication ev = false) (log run.1)) \/
   (exists before m model d made fetched updated,
      In (ModelsCreate m (Ok model)) before /\
      In (DeploymentsCreate d (Ok made)) before /\
      log run.1 = before ++
        [EndpointsCreate {| endpoint_name := endpoint_name fetched;
                            defaults_deployment_name :=
                              Some (deployment_name d) |} (Ok updated);
         Print ("Deployment: " +:+ deployment_name d)])).
Proof.
  apply (main_returns_normally (directory full_config)
           (client "Completed" children_with_match) []).
  vm_compute. reflexivity.
Defined.

Lemma deployment_serves_registered_model_witness :
  let run := main (directory full_config)
                  (client "Completed" children_with_match) (init []) in
  exists before after m model name compute step,
    log run.1 = before ++ ModelsCreate m (Ok model) :: after /\
    Forall (fun ev => is_endpoint_call ev = false) before /\
    registered_from (directory full_config) "score.yaml" step before /\
    In (ComponentsCreate
          (Pipeline name compute step
             [("input_data", PipelineParameter "input_data");
              ("model_path", Literal (model_id model))] "output_data")
          (Ok (deployment_component deployment))) after /\
    In (DeploymentsCreate deployment (Ok deployment)) after.
Proof.
  apply (deployment_serves_registered_model (directory full_config)
           (client "Completed" children_with_match) []).
  vm_compute. repeat (first [left; reflexivity | right]).
Defined.

Lemma default_set_after_deployment_witness :
  let run := main (directory full_config)
                  (client "Completed" children_with_match) (init []) in
  exists before after d made fetched,
    log run.1 =
      before ++
      DeploymentsCreate d (Ok made) ::
      EndpointsGet (deployment_endpoint_name d) (Ok fetched) ::
      EndpointsCreate default_endpoint (Ok default_endpoint) :: after /\
    deployment_name d = "exp-deployment" /\
    endpoint_name default_endpoint = endpoint_name fetched /\
    Forall (fun ev => is_remote ev = false) after.
Proof.
  apply (default_set_after_deployment (directory full_config)
           (client "Completed" children_with_match) []).
  - vm_compute. repeat (first [left; reflexivity | right]).
  - reflexivity.
Defined.

Lemma submitted_job_from_config_witness :
  let run := main (directory full_config)
                  (client "Completed" children_with_match) (init []) in
  let pipeline_job :=
    training_job "exp" "cpu" (Command "train.yaml" "1") sales in
  exists config experiment cluster_name datasource_name data train_component,
    json_load (directory full_config) "config.json" = Ok config /\
    config !! "experiment" = Some experiment /\
    config !! "cluster" = Some cluster_name /\
    config !! "datasource_name" = Some datasource_name /\
    component pipeline_job =
      Pipeline (experiment +:+ "_training") cluster_name train_component
        [("input_data",
          BoundInput {| input_type := URI_FILE; input_path := data_id data |})]
        "output_model" /\
    exists before after,
      log run.1 = before ++ JobsCreate pipeline_job (Ok submitted) :: after /\
      In (DataGet datasource_name "latest" (Ok data)) before /\
      registered_from (directory full_config) "train.yaml" train_component
                      before /\
      Forall (fun ev => is_submission ev = false) before /\
      Forall (fun ev => is_submission ev = false) after.
Proof.
  apply (submitted_job_from_config (directory full_config)
           (client "Completed" children_with_match) []).
  vm_compute. repeat (first [left; reflexivity | right]).
Defined.

Lemma names_from_config_witness :
  Forall (names_follow "exp" "cpu")
         (log (main (directory full_config)
                    (client "Completed" children_with_match) (init [])).1).
Proof.
  apply (names_from_config (directory full_config)
           (client "Completed" children_with_match) [] full_config);
    reflexivity.
Defined.

(** The example platform finds what was created on it. *)
Lemma client_finds_environment st children w new p p' made :
  environments_create_or_update (client st children w) new p = (p', Ok made) ->
  exists found,
    environments_get (client st children w) (env_name new) "latest" p' =
      (p', Ok found).
Proof.
  simpl. intros [= <- _]. unfold known.
  rewrite bool_decide_eq_true_2; [by eexists|]. apply elem_of_cons. by left.
Qed.

Lemma client_keeps_environment st children w name p p' found :
  environments_get (client st children w) name "latest" p = (p', Ok found) ->
  exists found',
    environments_get (client st children w) name "latest" p' = (p', Ok found').
Proof.
  simpl. intros [= <- H]. destruct (known p _); [by eexists|done].
Qed.

Lemma client_finds_component st children w new p p' made :
  components_create_or_update (client st children w) new p = (p', Ok made) ->
  exists found,
    components_get (client st children w) (comp_name new) (comp_version new)
                   p' = (p', Ok found).
Proof.
  simpl. intros [= <- _]. unfold known.
  rewrite bool_decide_eq_true_2; [by eexists|]. apply elem_of_cons. by left.
Qed.

Lemma client_keeps_component st children w name version p p' found :
  components_get (client st children w) name version p = (p', Ok found) ->
  exists found',
    components_get (client st children w) name version p' = (p', Ok found').
Proof.
  simpl. intros [= <- H]. destruct (known p _); [by eexists|done].
Qed.

Lemma environment_registered_once_witness :
  let ml := client "Completed" [] workspace in
  let first := register_environment ml "iGuard-env" "Dockerfile" (init []) in
  exists found,
    register_environment ml "iGuard-env" "Dockerfile.gpu" first.1 =
      ({| platform := platform first.1;
          log := log first.1 ++
            [EnvironmentsGet "iGuard-env" "latest" (Ok found);
             Print ("✅ Environment: " +:+ env_name found +:+ ":" +:+
                    show (env_version found))] |}, Ok found).
Proof.
  intros ml first.
  apply (environment_registered_once ml "iGuard-env" "Dockerfile"
           "Dockerfile.gpu" (init []) first.1
           {| env_name := "iGuard-env"; env_version := Some "1";
              env_description := Some "Environment for iGuard-env";
              env_build := Some {| build_path := ".";
                                   dockerfile_path := "Dockerfile" |} |}).
  - apply client_finds_environment.
  - apply client_keeps_environment.
  - reflexivity.
Defined.

Lemma component_registered_once_witness :
  let ml := client "Completed" [] workspace in
  let first :=
    register_component (directory full_config) ml "train.yaml" (init []) in
  exists c found,
    load_component (directory full_config) "train.yaml" = Ok c /\
    register_component (directory full_config) ml "train.yaml" first.1 =
      ({| platform := platform first.1;
          log := log first.1 ++
            [LoadComponent "train.yaml" (Ok c);
             ComponentsGet (comp_name c) (comp_version c) (Ok found);
             Print ("✅ Component: " +:+ comp_name found +:+ ":" +:+
                    comp_version found)] |}, Ok found).
Proof.
  intros ml first.
  apply (component_registered_once (directory full_config) ml "train.yaml"
           (init []) first.1 (Command "train.yaml" "1")).
  - apply client_finds_component.
  - apply client_keeps_component.
  - reflexivity.
Defined.

End RegisterExtras.
